(** * borg: the [org] command line interface (scripts/cli.py)

    A shallow embedding of [scripts/cli.py]: the [init] scaffolder, the
    [display_graphical_view] wrapper and the [main] dispatcher, over an
    explicit model of the working directory and a log of the calls the
    program makes to its collaborators (the validator, curses and the
    [views] module).  The [views] and [validation] modules are not part of
    the sources at hand: the command line code is verified for arbitrary
    implementations of them (Section [Cli]); statements about the record
    catalogue, the query engine and the browser session themselves are
    settled on a model written from the specification (Module [Views]). *)

From Stdlib Require Import String Ascii List Bool ZArith Lia Sorted.
Import ListNotations.
Local Open Scope string_scope.
Local Open Scope list_scope.

Set Implicit Arguments.

(** String concatenation, Python's [+] on [str]. *)
Infix "^^" := String.append (at level 60, right associativity).

(* ===================================================================== *)
(** ** Python values *)

(** An optional command line argument: [None] is Python's [None]. *)
Definition pystr := option string.

(** Truth value of an optional string in a condition: [None] and the empty
    string are false. *)
Definition truthy (v : pystr) : bool :=
  match v with
  | Some s => negb (s =? "")
  | None => false
  end.

(** [a == 'lit'] where [a] may be [None]. *)
Definition py_eq (v : pystr) (lit : string) : bool :=
  match v with
  | Some s => s =? lit
  | None => false
  end.

(** [needle in hay] on strings. *)
Fixpoint contains (needle hay : string) : bool :=
  prefix needle hay ||
  match hay with
  | EmptyString => false
  | String _ hay' => contains needle hay'
  end.

Definition newline : ascii := "010"%char.
Definition nl : string := String newline "".

Fixpoint ends_with_slash (s : string) : bool :=
  match s with
  | EmptyString => false
  | String c EmptyString => (c =? "/")%char
  | String _ s' => ends_with_slash s'
  end.

(** [os.path.join a b] for two components. *)
Definition path_join (a b : string) : string :=
  if prefix "/" b then b
  else if (a =? "") || ends_with_slash a then a ^^ b
  else a ^^ "/" ^^ b.

Definition carriage_return : ascii := "013"%char.

(** A file opened in text mode is read with universal newlines: CR LF and a
    lone CR both arrive as LF. *)
Fixpoint universal_newlines (s : string) : string :=
  match s with
  | EmptyString => EmptyString
  | String c s1 =>
      if (c =? carriage_return)%char then
        match s1 with
        | EmptyString => String newline EmptyString
        | String d s2 =>
            if (d =? newline)%char then
              String newline (universal_newlines s2)
            else String newline (universal_newlines s1)
        end
      else String c (universal_newlines s1)
  end.

Definition byte_in (lo hi : nat) (c : ascii) : bool :=
  let n := nat_of_ascii c in (lo <=? n)%nat && (n <=? hi)%nat.

(** The bytes of a file decode as UTF-8 (the strict decoder of [open] in
    text mode): one to four byte sequences, no overlong form, no surrogate,
    nothing above U+10FFFF, nothing cut short. *)
Fixpoint utf8_valid (s : string) : bool :=
  match s with
  | EmptyString => true
  | String a s1 =>
      if byte_in 0 127 a then utf8_valid s1
      else
        match s1 with
        | EmptyString => false
        | String b s2 =>
            if byte_in 194 223 a then byte_in 128 191 b && utf8_valid s2
            else
              match s2 with
              | EmptyString => false
              | String c s3 =>
                  if byte_in 224 239 a then
                    (if byte_in 224 224 a then byte_in 160 191 b
                     else if byte_in 237 237 a then byte_in 128 159 b
                     else byte_in 128 191 b)
                    && byte_in 128 191 c && utf8_valid s3
                  else
                    match s3 with
                    | EmptyString => false
                    | String d s4 =>
                        byte_in 240 244 a
                        && (if byte_in 240 240 a then byte_in 144 191 b
                            else if byte_in 244 244 a then byte_in 128 143 b
                            else byte_in 128 191 b)
                        && byte_in 128 191 c && byte_in 128 191 d
                        && utf8_valid s4
                    end
              end
        end
  end.

(** The lines of a text whose line ends are LF, each with its terminator;
    [cur] is the line read so far. *)
Fixpoint readlines_from (cur s : string) : list string :=
  match s with
  | EmptyString => if cur =? "" then [] else [cur]
  | String c s' =>
      if (c =? newline)%char then (cur ^^ nl) :: readlines_from "" s'
      else readlines_from (cur ^^ String c "") s'
  end.

(** [f.readlines()] on the content of a file opened with [open(p, 'r')]:
    line ends are translated, then the text is cut after every LF. *)
Definition readlines (s : string) : list string :=
  readlines_from "" (universal_newlines s).

Definition str_in (s : string) (l : list string) : bool :=
  existsb (String.eqb s) l.

(* ===================================================================== *)
(** ** The working directory *)

(** A file system node.  A file whose content cannot be read is
    [File None]. *)
#[warnings="-register-all"]
Inductive Node : Type :=
| File (content : option string)
| Dir (children : list (string * Node)).

Definition listing := list (string * Node).

Fixpoint lookup (name : string) (l : listing) : option Node :=
  match l with
  | [] => None
  | (n, x) :: l' => if n =? name then Some x else lookup name l'
  end.

Fixpoint remove_entry (name : string) (l : listing) : listing :=
  match l with
  | [] => []
  | (n, x) :: l' => if n =? name then l' else (n, x) :: remove_entry name l'
  end.

(** Replace the entry [name] by [f] of it, or add [f None] at the end. *)
Fixpoint upsert (name : string) (f : option Node -> Node) (l : listing)
  : listing :=
  match l with
  | [] => [(name, f None)]
  | (n, x) :: l' =>
      if n =? name then (n, f (Some x)) :: l'
      else (n, x) :: upsert name f l'
  end.

(** The node at a relative path (a list of components). *)
Fixpoint node_at (p : list string) (n : Node) : option Node :=
  match p with
  | [] => Some n
  | x :: p' =>
      match n with
      | Dir ch =>
          match lookup x ch with
          | Some c => node_at p' c
          | None => None
          end
      | File _ => None
      end
  end.

Fixpoint node_set (p : list string) (new : Node) (n : Node) : Node :=
  match p with
  | [] => new
  | x :: p' =>
      match n with
      | Dir ch =>
          Dir (upsert x
                 (fun old => node_set p' new
                               (match old with Some c => c | None => Dir [] end))
                 ch)
      | File _ => n
      end
  end.

Definition fs_at (p : list string) (fs : listing) : option Node :=
  node_at p (Dir fs).

Definition fs_set (p : list string) (new : Node) (fs : listing) : listing :=
  match node_set p new (Dir fs) with
  | Dir ch => ch
  | File _ => fs
  end.

Definition is_dir (o : option Node) : bool :=
  match o with
  | Some (Dir _) => true
  | _ => false
  end.

Definition is_some {A} (o : option A) : bool :=
  match o with
  | Some _ => true
  | None => false
  end.

(* ===================================================================== *)
(** ** Data handed between the command line and the [views] module *)

(** Modelled from the spec: the record type of the absent [views] module
    (section 3, Record): kind, source path, ordered property mapping and raw
    content. *)
Inductive Kind : Type := Note | Todo | Event.

Record Entry : Type := mkEntry {
  kind : Kind;
  sourcePath : string;
  properties : list (string * string);
  rawContent : string
}.

Definition Collection := list Entry.

(** Modelled from the spec: the input events of a browsing session
    (section 4.3), already decoded from the keyboard. *)
Inductive Input : Type :=
| MoveUp
| MoveDown
| Search (exact : bool) (prop term : pystr)
| Sort (prop : pystr) (reverse : bool)
| Reset
| Quit.

(** Modelled from the spec: what one redraw puts on the screen, either the
    placeholder for an empty view or the visible rows, the selected one
    flagged. *)
Inductive Frame : Type :=
| NoEntries
| Rows (rows : list (bool * Entry)).

(** The curses screen given to the wrapped function: its height and the
    input events that will be read from it. *)
Record Terminal : Type := mkTerminal {
  height : nat;
  pending : list Input
}.

(* ===================================================================== *)
(** ** Effects: the world, the call log and the monad *)

Definition Exn := string.

(** The calls the command line makes to the outside, in program order. *)
Inductive Ev : Type :=
| EPrint (msg : string)
| EValidate
| EAcquire
| ERelease
| ELoad (kind_name : string)
| EFuzzy (prop term : pystr)
| EExact (prop term : pystr)
| ESort (prop : pystr) (reverse : bool)
| EDisplay (entries : Collection) (file_type : string) (frames : list Frame)
| EViewsMain (frames : list Frame).

Record World : Type := mkWorld {
  cwd : string;
  fs : listing;
  term : Terminal
}.

(** A run either returns or raises; both leave a world and the calls made. *)
Inductive Outcome (A : Type) : Type :=
| Ok (a : A) (w : World) (t : list Ev)
| Raise (e : Exn) (w : World) (t : list Ev).

Arguments Raise {A} e w t.

Definition M (A : Type) : Type := World -> Outcome A.

Definition ret {A} (a : A) : M A := fun w => Ok a w [].

Definition bind {A B} (c : M A) (k : A -> M B) : M B :=
  fun w =>
    match c w with
    | Ok a w1 t1 =>
        match k a w1 with
        | Ok b w2 t2 => Ok b w2 (t1 ++ t2)
        | Raise e w2 t2 => Raise e w2 (t1 ++ t2)
        end
    | Raise e w1 t1 => Raise e w1 t1
    end.

Declare Scope cli_scope.
Delimit Scope cli_scope with cli.
Notation "x <- c ;; k" := (bind c (fun x => k))
  (at level 61, c at next level, right associativity) : cli_scope.
Notation "c ;; k" := (bind c (fun _ => k))
  (at level 61, right associativity) : cli_scope.
Local Open Scope cli_scope.

Definition emit (e : Ev) : M unit := fun w => Ok tt w [e].
Definition raise {A} (e : Exn) : M A := fun w => Raise e w [].
Definition print (msg : string) : M unit := emit (EPrint msg).
Definition getcwd : M string := fun w => Ok (cwd w) w [].
Definition get_fs : M listing := fun w => Ok (fs w) w [].
Definition put_fs (l : listing) : M unit :=
  fun w => Ok tt (mkWorld (cwd w) l (term w)) [].

(** [try c finally h]. *)
Definition finally {A} (c : M A) (h : M unit) : M A :=
  fun w =>
    match c w with
    | Ok a w1 t1 =>
        match h w1 with
        | Ok _ w2 t2 => Ok a w2 (t1 ++ t2)
        | Raise e w2 t2 => Raise e w2 (t1 ++ t2)
        end
    | Raise e w1 t1 =>
        match h w1 with
        | Ok _ w2 t2 => Raise e w2 (t1 ++ t2)
        | Raise e' w2 t2 => Raise e' w2 (t1 ++ t2)
        end
    end.

Fixpoint for_each {A} (l : list A) (body : A -> M unit) : M unit :=
  match l with
  | [] => ret tt
  | x :: l' => body x ;; for_each l' body
  end.

(** The calls logged by a run, and the world it leaves. *)
Definition events {A} (o : Outcome A) : list Ev :=
  match o with
  | Ok _ _ t => t
  | Raise _ _ t => t
  end.

Definition world_of {A} (o : Outcome A) : World :=
  match o with
  | Ok _ w _ => w
  | Raise _ w _ => w
  end.

Definition returns {A} (o : Outcome A) : bool :=
  match o with
  | Ok _ _ _ => true
  | Raise _ _ _ => false
  end.

(** [curses.wrapper f]: set the terminal up, call [f] on the screen and
    restore the terminal on every exit path: when [f] returns, and when it
    raises, the exception going on after the release.  Setting the terminal
    up is taken to succeed. *)
Definition curses_wrapper {A} (f : Terminal -> M A) : M A :=
  emit EAcquire ;;
  finally (fun w => f (term w) w) (emit ERelease).

(** *** File operations of [os] and [open] on paths below the working
    directory *)

Definition path_exists (p : list string) : M bool :=
  l <- get_fs ;; ret (is_some (fs_at p l)).

Definition path_isdir (p : list string) : M bool :=
  l <- get_fs ;; ret (is_dir (fs_at p l)).

(** [os.remove] of an entry of the working directory. *)
Definition os_remove (name : string) : M unit :=
  l <- get_fs ;;
  match lookup name l with
  | Some (File _) => put_fs (remove_entry name l)
  | Some (Dir _) => raise "IsADirectoryError"
  | None => raise "FileNotFoundError"
  end.

(** [os.makedirs] of a path whose parent exists. *)
Definition makedirs (p : list string) : M unit :=
  l <- get_fs ;;
  if is_some (fs_at p l) then raise "FileExistsError"
  else put_fs (fs_set p (Dir []) l).

(** [os.listdir] of the working directory. *)
Definition listdir : M (list string) :=
  l <- get_fs ;; ret (map fst l).

(** [open(p, 'r')] then [readlines()].  The content of a file is its bytes;
    the platform's text encoding is taken to be UTF-8 and its line
    separator LF, so the text read and the text written are the bytes
    themselves, and bytes that do not decode raise. *)
Definition read_lines (p : list string) : M (list string) :=
  l <- get_fs ;;
  match fs_at p l with
  | Some (File (Some c)) =>
      if utf8_valid c then ret (readlines c) else raise "UnicodeDecodeError"
  | Some (File None) => raise "PermissionError"
  | Some (Dir _) => raise "IsADirectoryError"
  | None => raise "FileNotFoundError"
  end.

(** [open(p, 'a')] then [write(text)]. *)
Definition append_text (p : list string) (text : string) : M unit :=
  l <- get_fs ;;
  match fs_at p l with
  | Some (File (Some c)) => put_fs (fs_set p (File (Some (c ^^ text))) l)
  | Some (File None) => raise "PermissionError"
  | Some (Dir _) => raise "IsADirectoryError"
  | None => put_fs (fs_set p (File (Some text)) l)
  end.

(** [open(p, 'w')] then [write(text)]. *)
Definition write_text (p : list string) (text : string) : M unit :=
  l <- get_fs ;;
  match fs_at p l with
  | Some (File None) => raise "PermissionError"
  | Some (Dir _) => raise "IsADirectoryError"
  | _ => put_fs (fs_set p (File (Some text)) l)
  end.

(* ===================================================================== *)
(** ** The collaborators of the command line *)

(** The functions [cli.py] uses from [scripts.views].  The loader reads the
    working directory (its path and its entries); the two interactive
    functions receive the curses screen. *)
Record ViewsModule : Type := mkViews {
  load_files_from_subdir : string -> string -> listing -> Collection;
  fuzzy_search : Collection -> pystr -> pystr -> Collection;
  exact_search : Collection -> pystr -> pystr -> Collection;
  sort_items : Collection -> pystr -> bool -> Collection;
  display_files_with_view : Terminal -> Collection -> string -> list Frame;
  views_main : Terminal -> string -> listing -> list Frame
}.

(** What a run of [scripts.validation.main] does: it may print, may change
    files, and returns or raises. *)
Record ValOutcome : Type := mkVal {
  val_output : list string;
  val_fs : listing;
  val_raised : option Exn
}.

Definition Validator := string -> listing -> ValOutcome.

(** The namespace produced by [parser.parse_args()]. *)
Record Args : Type := mkArgs {
  command : pystr;
  file_type : string;
  search_command : pystr;
  search_prop : pystr;
  search_term : pystr
}.

(* ===================================================================== *)
(** ** scripts/cli.py *)

Definition MARKER : string := "_org".

(** [init()], lines 9-61. *)
Definition init : M unit :=
  current_dir <- getcwd ;;
  let org_dir_path := path_join current_dir ".org" in
  ex <- path_exists [".org"] ;;
  go_on <-
    (if ex then
       d <- path_isdir [".org"] ;;
       if d then
         print ("Directory '" ^^ current_dir
                ^^ "' is already initialized for org.") ;;
         ret false
       else
         print ("Error: '" ^^ org_dir_path
                ^^ "' exists as a file. Removing and creating as a directory.") ;;
         os_remove ".org" ;;
         ret true
     else ret true) ;;
  if negb go_on then ret tt
  else
    makedirs [".org"] ;;
    print ("Created .org directory in " ^^ current_dir) ;;
    subfolders <- listdir ;;
    for_each subfolders (fun subfolder =>
      let subfolder_path := path_join current_dir subfolder in
      d <- path_isdir [subfolder] ;;
      if d && contains MARKER subfolder then
        for_each ["notes"; "todos"; "events"] (fun folder =>
          let folder_path := path_join subfolder_path folder in
          e <- path_exists [subfolder; folder] ;;
          if negb e then
            makedirs [subfolder; folder] ;;
            print ("Created: " ^^ folder_path)
          else ret tt)
      else ret tt) ;;
    has_gitignore <- path_exists [".gitignore"] ;;
    if has_gitignore then
      gitignore_lines <- read_lines [".gitignore"] ;;
      if negb (str_in (".org" ^^ nl) gitignore_lines)
         && negb (str_in ".org" gitignore_lines) then
        append_text [".gitignore"] ("/.org" ^^ nl) ;;
        print "Added .org to existing .gitignore"
      else print ".org is already listed in .gitignore"
    else
      write_text [".gitignore"] (".org" ^^ nl) ;;
      print "Created .gitignore and added .org".

Section Cli.

Variable views : ViewsModule.
Variable run_validation : Validator.

(** A call of [views.load_files_from_subdir]. *)
Definition load (kind_name : string) : M Collection :=
  fun w => Ok (load_files_from_subdir views kind_name (cwd w) (fs w)) w
              [ELoad kind_name].

(** A call of [run_validation()]. *)
Definition call_validation : M unit :=
  fun w =>
    let r := run_validation (cwd w) (fs w) in
    let w' := mkWorld (cwd w) (val_fs r) (term w) in
    let t := EValidate :: map EPrint (val_output r) in
    match val_raised r with
    | Some e => Raise e w' t
    | None => Ok tt w' t
    end.

(** [inner], lines 68-80: the entries of the requested kind. *)
Definition load_entries (file_type : string) : M Collection :=
  if file_type =? "notes" then load "notes"
  else if file_type =? "todos" then load "todos"
  else if file_type =? "events" then load "events"
  else if file_type =? "all" then
    notes <- load "notes" ;;
    todos <- load "todos" ;;
    events <- load "events" ;;
    ret (notes ++ todos ++ events)
  else ret [].

(** [inner], lines 82-87: the optional search. *)
Definition apply_search (entries : Collection)
    (search_prop search_term : pystr) (exact : bool) : M Collection :=
  if truthy search_prop && truthy search_term then
    if exact then
      emit (EExact search_prop search_term) ;;
      ret (exact_search views entries search_prop search_term)
    else
      emit (EFuzzy search_prop search_term) ;;
      ret (fuzzy_search views entries search_prop search_term)
  else ret entries.

(** [inner], lines 89-91: the optional sort. *)
Definition apply_sort (entries : Collection)
    (sort_prop : pystr) (reverse : bool) : M Collection :=
  if truthy sort_prop then
    emit (ESort sort_prop reverse) ;;
    ret (sort_items views entries sort_prop reverse)
  else ret entries.

(** [inner(stdscr)], lines 67-94. *)
Definition inner (file_type : string) (search_prop search_term : pystr)
    (exact : bool) (sort_prop : pystr) (reverse : bool)
    (stdscr : Terminal) : M unit :=
  entries <- load_entries file_type ;;
  entries <- apply_search entries search_prop search_term exact ;;
  entries <- apply_sort entries sort_prop reverse ;;
  emit (EDisplay entries file_type
          (display_files_with_view views stdscr entries file_type)).

(** [display_graphical_view], lines 63-96. *)
Definition display_graphical_view (file_type : string)
    (search_prop search_term : pystr) (exact : bool)
    (sort_prop : pystr) (reverse : bool) : M unit :=
  curses_wrapper
    (inner file_type search_prop search_term exact sort_prop reverse).

(** [main()], lines 128-145: the dispatch of a [view] command. *)
Definition view_command (args : Args) : M unit :=
  if py_eq (search_command args) "s"
     && truthy (search_prop args) && truthy (search_term args) then
    display_graphical_view (file_type args)
      (search_prop args) (search_term args) false None false
  else if py_eq (search_command args) "es"
          && truthy (search_prop args) && truthy (search_term args) then
    display_graphical_view (file_type args)
      (search_prop args) (search_term args) true None false
  else if py_eq (search_command args) "o" && truthy (search_prop args) then
    display_graphical_view (file_type args)
      None None false (search_prop args) false
  else if py_eq (search_command args) "r" && truthy (search_prop args) then
    display_graphical_view (file_type args)
      None None false (search_prop args) true
  else if py_eq (search_command args) "a" then
    display_graphical_view (file_type args) None None false None false
  else
    display_graphical_view (file_type args) None None false None false.

(** [main()] after argument parsing, lines 120-159. *)
Definition main (args : Args) : M unit :=
  if py_eq (command args) "init" then init
  else if py_eq (command args) "view" then
    call_validation ;;
    view_command args
  else if py_eq (command args) "val" then call_validation
  else
    current_dir <- getcwd ;;
    has_org <- path_exists [".org"] ;;
    if negb has_org then
      print ("Error: '.org' file not found in " ^^ current_dir
             ^^ ". This directory is not initialized for org.")
    else
      curses_wrapper (fun stdscr =>
        fun w => Ok tt w [EViewsMain (views_main views stdscr (cwd w) (fs w))]).

(** *** Observations on a run *)

(** The collection [inner] has after its loading step. *)
Definition full_load (file_type : string) (w : World) : Collection :=
  match load_entries file_type w with
  | Ok c _ _ => c
  | Raise _ _ _ => []
  end.

(** The world a returning validator leaves. *)
Definition validated (w : World) : World :=
  mkWorld (cwd w) (val_fs (run_validation (cwd w) (fs w))) (term w).

(** The calls a run of the validator logs. *)
Definition validation_log (w : World) : list Ev :=
  EValidate :: map EPrint (val_output (run_validation (cwd w) (fs w))).

End Cli.

(* ===================================================================== *)
(** ** The [views] module, from the specification *)

Module Views.

(** *** Record Loader (section 4.1) *)

(** Modelled from the spec: the kind named by a kind-folder; [views.py] is
    not among the sources. *)
Definition kind_of_name (kind_name : string) : option Kind :=
  if kind_name =? "notes" then Some Note
  else if kind_name =? "todos" then Some Todo
  else if kind_name =? "events" then Some Event
  else None.

Section Loader.

(** The syntax that splits a file into name/value pairs is left open by
    the specification (section 6). *)
Variable parse_properties : string -> list (string * string).

(** Modelled from the spec: one record per regular file; a file that
    cannot be read is skipped, a folder inside the kind-folder is not
    descended into. *)
Definition load_file (k : Kind) (folder_path : string)
    (f : string * Node) : Collection :=
  match snd f with
  | File (Some text) =>
      [mkEntry k (path_join folder_path (fst f))
         (parse_properties text) text]
  | File None => []
  | Dir _ => []
  end.

(** Modelled from the spec: the records one subdirectory of the root
    contributes: those of its kind-named folder when the subdirectory
    is marked, nothing when it is not marked or the folder is
    missing. *)
Definition load_project (kind_name root : string)
    (p : string * Node) : Collection :=
  match kind_of_name kind_name, snd p with
  | Some k, Dir children =>
      if contains MARKER (fst p) then
        match lookup kind_name children with
        | Some (Dir files) =>
            flat_map
              (load_file k
                 (path_join (path_join root (fst p)) kind_name))
              files
        | _ => []
        end
      else []
  | _, _ => []
  end.

(** Modelled from the spec: [load_files_from_subdir], the scan of every
    marked subdirectory of the root, in directory order. *)
Definition load_files_from_subdir (kind_name root : string)
    (entries : listing) : Collection :=
  flat_map (load_project kind_name root) entries.

End Loader.

(** *** Query Engine (section 4.2) *)

(** The value of a property of a record, if it has it. *)
Fixpoint assoc (p : string) (l : list (string * string)) : option string :=
  match l with
  | [] => None
  | (n, v) :: l' => if n =? p then Some v else assoc p l'
  end.

Definition get (p : string) (r : Entry) : option string :=
  assoc p (properties r).

Definition has (p : string) (r : Entry) : bool := is_some (get p r).

Definition lower_char (c : ascii) : ascii :=
  let n := nat_of_ascii c in
  if (65 <=? n)%nat && (n <=? 90)%nat then ascii_of_nat (n + 32) else c.

Fixpoint lower (s : string) : string :=
  match s with
  | EmptyString => EmptyString
  | String c s' => String (lower_char c) (lower s')
  end.

(** [t] occurs in [s] as a subsequence. *)
Fixpoint subsequence (t s : string) : bool :=
  match s with
  | EmptyString => match t with EmptyString => true | _ => false end
  | String c s' =>
      match t with
      | EmptyString => true
      | String d t' =>
          if (c =? d)%char then subsequence t' s' else subsequence t s'
      end
  end.

(** Modelled from the spec: case-insensitive substring-or-subsequence
    match of the term against a text. *)
Definition fuzzy_match (term text : string) : bool :=
  contains (lower term) (lower text)
  || subsequence (lower term) (lower text).

Definition is_empty_term (term : pystr) : bool := negb (truthy term).

Definition term_text (term : pystr) : string :=
  match term with Some t => t | None => "" end.

(** Modelled from the spec: fuzzy search, a stable filter; the record's
    raw content stands in for a property it lacks; an empty term or an
    absent property changes nothing. *)
Definition fuzzy_search (c : Collection) (prop term : pystr) : Collection :=
  match prop with
  | None => c
  | Some p =>
      if is_empty_term term then c
      else
        filter (fun r =>
                  fuzzy_match (term_text term)
                    (match get p r with
                     | Some v => v
                     | None => rawContent r
                     end)) c
  end.

(** Modelled from the spec: exact search, case-sensitive equality of the
    property's value with the term; records lacking the property are
    excluded; an empty term or an absent property changes nothing. *)
Definition exact_search (c : Collection) (prop term : pystr) : Collection :=
  match prop with
  | None => c
  | Some p =>
      if is_empty_term term then c
      else
        filter (fun r =>
                  match get p r with
                  | Some v => v =? term_text term
                  | None => false
                  end) c
  end.

(** The sort key of a record that has the property. *)
Definition key (p : string) (r : Entry) : string :=
  match get p r with Some v => v | None => "" end.

(** Stable insertion into a list ordered by [key p]: [x], which came
    before every element of [l], stays before the elements equal to
    it. *)
Fixpoint insert (p : string) (x : Entry) (l : Collection) : Collection :=
  match l with
  | [] => [x]
  | y :: l' =>
      if (key p x <=? key p y)%string then x :: y :: l'
      else y :: insert p x l'
  end.

Fixpoint stable_sort (p : string) (l : Collection) : Collection :=
  match l with
  | [] => []
  | x :: l' => insert p x (stable_sort p l')
  end.

(** The ascending order: the records that have the property in stable
    lexical order of its value, then the records that lack it, in their
    original order. *)
Definition ascending (p : string) (c : Collection) : Collection :=
  stable_sort p (filter (has p) c)
  ++ filter (fun r => negb (has p r)) c.

(** Modelled from the spec: sort; [reverse] reverses the final ordering;
    an absent property changes nothing. *)
Definition sort_items (c : Collection) (prop : pystr) (reverse : bool)
  : Collection :=
  match prop with
  | None => c
  | Some p => if reverse then rev (ascending p c) else ascending p c
  end.

(** *** Browser Session (section 4.3) *)

Inductive Mode : Type := Browsing | Terminated.

Record Session : Type := mkSession {
  fullCollection : Collection;
  viewCollection : Collection;
  cursorIndex : Z;
  kindFilter : string;
  mode : Mode
}.

(** Clamp a row index to the rows of a view of [n] records; 0 when the
    view is empty. *)
Definition clamp (n : nat) (i : Z) : Z :=
  Z.max 0 (Z.min (Z.of_nat n - 1) i).

Definition start (full view : Collection) (kind_filter : string) : Session :=
  mkSession full view 0 kind_filter Browsing.

(** Modelled from the spec: the transition taken on one input event. *)
Definition step (s : Session) (i : Input) : Session :=
  match mode s with
  | Terminated => s
  | Browsing =>
      let full := fullCollection s in
      let view := viewCollection s in
      let kf := kindFilter s in
      match i with
      | MoveUp =>
          mkSession full view (clamp (length view) (cursorIndex s - 1))
            kf Browsing
      | MoveDown =>
          mkSession full view (clamp (length view) (cursorIndex s + 1))
            kf Browsing
      | Search exact prop term =>
          mkSession full
            (if exact then exact_search full prop term
             else fuzzy_search full prop term)
            0 kf Browsing
      | Sort prop reverse =>
          mkSession full (sort_items view prop reverse) 0 kf Browsing
      | Reset => mkSession full full 0 kf Browsing
      | Quit => mkSession full view (cursorIndex s) kf Terminated
      end
  end.

Definition run (s : Session) (inputs : list Input) : Session :=
  fold_left step inputs s.

(** Rows [from, from + h) of a view, the selected one flagged. *)
Definition window (h from : nat) (cursor : Z) (view : Collection)
  : list (bool * Entry) :=
  firstn h
    (skipn from
       (map (fun ir => (Z.eqb (Z.of_nat (fst ir)) cursor, snd ir))
          (combine (seq 0 (length view)) view))).

(** Modelled from the spec: one redraw: the placeholder for an empty view,
    otherwise a window of at most [h] rows that contains the selected
    row. *)
Definition render (h : nat) (s : Session) : Frame :=
  match viewCollection s with
  | [] => NoEntries
  | _ :: _ =>
      let c := Z.to_nat (cursorIndex s) in
      Rows (window h (c + 1 - h) (cursorIndex s) (viewCollection s))
  end.

(** The frames drawn while the inputs are processed: one for the initial
    state and one after every event taken while browsing. *)
Fixpoint frames (h : nat) (s : Session) (inputs : list Input)
  : list Frame :=
  match inputs with
  | [] => []
  | i :: inputs' =>
      match mode (step s i) with
      | Terminated => []
      | Browsing => render h (step s i) :: frames h (step s i) inputs'
      end
  end.

(** Modelled from the spec: [display_files_with_view]: a session whose
    baseline and first view are the collection handed over. *)
Definition display_files_with_view (stdscr : Terminal)
    (entries : Collection) (file_type : string) : list Frame :=
  let s := start entries entries file_type in
  render (height stdscr) s :: frames (height stdscr) s (pending stdscr).

(** The [views] module as the command line sees it; the start screen
    [views.main] is not described by the specification. *)
Definition module (parse_properties : string -> list (string * string))
    (main_screen : Terminal -> string -> listing -> list Frame)
  : ViewsModule :=
  mkViews (load_files_from_subdir parse_properties)
    fuzzy_search exact_search sort_items
    display_files_with_view main_screen.

End Views.

(* ===================================================================== *)
(** ** Reading the call log *)

(** The collections handed to [views.display_files_with_view]. *)
Definition displayed (t : list Ev) : list Collection :=
  flat_map (fun e => match e with
                     | EDisplay c _ _ => [c]
                     | _ => []
                     end) t.

(** The frames drawn by the sessions of a run. *)
Definition screens (t : list Ev) : list (list Frame) :=
  flat_map (fun e => match e with
                     | EDisplay _ _ fr => [fr]
                     | EViewsMain fr => [fr]
                     | _ => []
                     end) t.

Definition is_search (e : Ev) : bool :=
  match e with
  | EFuzzy _ _ | EExact _ _ => true
  | _ => false
  end.

Definition is_sort (e : Ev) : bool :=
  match e with
  | ESort _ _ => true
  | _ => false
  end.

(** The Query Engine calls of a run. *)
Definition query_calls (t : list Ev) : list Ev :=
  filter (fun e => is_search e || is_sort e) t.

(** The calls that belong to browsing: the terminal, the loader, the query
    engine and the session. *)
Definition is_browsing (e : Ev) : bool :=
  match e with
  | EPrint _ | EValidate => false
  | _ => true
  end.

Definition browsing_calls (t : list Ev) : list Ev := filter is_browsing t.

(** The value and the calls of the search step of [inner]. *)
Definition searched (views : ViewsModule) (entries : Collection)
    (search_prop search_term : pystr) (exact : bool) : Collection :=
  if truthy search_prop && truthy search_term then
    if exact then exact_search views entries search_prop search_term
    else fuzzy_search views entries search_prop search_term
  else entries.

Definition search_log (search_prop search_term : pystr) (exact : bool)
  : list Ev :=
  if truthy search_prop && truthy search_term then
    [if exact then EExact search_prop search_term
     else EFuzzy search_prop search_term]
  else [].

(** The value and the calls of the sort step of [inner]. *)
Definition sorted_by (views : ViewsModule) (entries : Collection)
    (sort_prop : pystr) (reverse : bool) : Collection :=
  if truthy sort_prop then sort_items views entries sort_prop reverse
  else entries.

Definition sort_log (sort_prop : pystr) (reverse : bool) : list Ev :=
  if truthy sort_prop then [ESort sort_prop reverse] else [].

(** The collection [inner] hands to the session. *)
Definition final_view (views : ViewsModule) (ft : string) (sp st : pystr)
    (ex : bool) (so : pystr) (rv : bool) (w : World) : Collection :=
  sorted_by views (searched views (full_load views ft w) sp st ex) so rv.

(** A [view] command line. *)
Definition view_args (file_type : string)
    (search_command search_prop search_term : pystr) : Args :=
  mkArgs (Some "view") file_type search_command search_prop search_term.

(** The order the sort compares two records by: lexical order of the
    property's values. *)
Definition key_le (p : string) (x y : Entry) : Prop :=
  (Views.key p x <=? Views.key p y)%string = true.

(** The selected row is a row of the view, or row 0 of an empty view. *)
Definition cursor_in_range (s : Views.Session) : Prop :=
  (Views.viewCollection s = [] -> Views.cursorIndex s = 0%Z)
  /\ (Views.viewCollection s <> [] ->
      (0 <= Views.cursorIndex s
       <= Z.of_nat (length (Views.viewCollection s)) - 1)%Z).

(** A subdirectory whose folder for a kind is missing or holds nothing. *)
Definition lacks_kind (kind_name : string) (p : string * Node) : Prop :=
  match snd p with
  | Dir children =>
      lookup kind_name children = None
      \/ lookup kind_name children = Some (Dir [])
  | File _ => True
  end.

(* ===================================================================== *)
(** ** Sample data *)


(** Modelled from the spec: the least validator of that kind, which reports
    an uninitialised directory, has nothing else to say and changes no
    file. *)
Definition scaffold_validation : Validator :=
  fun _ l =>
    match lookup ".org" l with
    | None => mkVal [] l (Some "directory not initialised")
    | Some _ => mkVal [] l None
    end.

(** A directory whose [.gitignore] holds a byte that is no UTF-8: the
    letters [caf], the byte 233 and a line end. *)
Definition latin1_world : World :=
  mkWorld "/home/u"
    [(".gitignore", File (Some ("caf" ^^ String (ascii_of_nat 233) nl)))]
    (mkTerminal 24 [Quit]).

(** A directory whose [.gitignore] has CR LF line ends and lists [.org]. *)
Definition crlf_world : World :=
  mkWorld "/home/u"
    [(".gitignore",
      File (Some ("build" ^^ String carriage_return nl
                  ^^ ".org" ^^ String carriage_return nl)))]
    (mkTerminal 24 [Quit]).

(** A run of the validator that finds nothing to report; used on sample
    directories that are initialised. *)
Definition passing_validation : Validator :=
  fun _ l => mkVal [] l None.

(** A validator that stops with a problem. *)
Definition failing_validation : Validator :=
  fun _ l => mkVal ["invalid front matter"] l (Some "SystemExit").

(** A parser for sample files: the whole text is the [status]. *)
Definition sample_parse (text : string) : list (string * string) :=
  [("status", text)].

Definition sample_views : ViewsModule :=
  Views.module sample_parse (fun _ _ _ => [NoEntries]).

(** A project with three todos, [open], [open] and [done], no notes folder
    and an empty events folder, in an initialised directory. *)
Definition sample_fs : listing :=
  [(".org", Dir []);
   ("work_org",
    Dir [("todos",
          Dir [("a.md", File (Some "open"));
               ("b.md", File (Some "open"));
               ("c.md", File (Some "done"))]);
         ("events", Dir [])]);
   ("scratch", Dir [("todos", Dir [("x.md", File (Some "open"))])])].

Definition sample_world : World :=
  mkWorld "/home/u" sample_fs (mkTerminal 24 [MoveDown; MoveDown; Quit]).

(** A directory never initialised: a marked project and no [.org]. *)
Definition bare_world : World :=
  mkWorld "/home/u"
    [("work_org", Dir [("todos", Dir [("a.md", File (Some "open"))])])]
    (mkTerminal 24 [Quit]).

Definition todo (path status : string) : Entry :=
  mkEntry Todo path [("status", status)] status.

Definition sample_todos : Collection :=
  [todo "/home/u/work_org/todos/a.md" "open";
   todo "/home/u/work_org/todos/b.md" "open";
   todo "/home/u/work_org/todos/c.md" "done"].

(* ===================================================================== *)
(** ** The parts of [init] *)

(** The calls of a run put in front of what follows it. *)
Definition prepend {A} (t : list Ev) (o : Outcome A) : Outcome A :=
  match o with
  | Ok a w t' => Ok a w (t ++ t')
  | Raise e w t' => Raise e w (t ++ t')
  end.

Definition is_print (e : Ev) : bool :=
  match e with
  | EPrint _ => true
  | _ => false
  end.

(** A computation that, whatever it does to the files, only prints. *)
Definition quiet {A} (c : M A) : Prop :=
  forall w, Forall (fun e => is_print e = true) (events (c w)).

(** The folder names of lines 37. *)
Definition kinds : list string := ["notes"; "todos"; "events"].

(** [init], lines 38-41: one folder of one subfolder. *)
Definition scaffold_folder (subfolder_path subfolder folder : string)
  : M unit :=
  let folder_path := path_join subfolder_path folder in
  e <- path_exists [subfolder; folder] ;;
  if negb e then
    makedirs [subfolder; folder] ;;
    print ("Created: " ^^ folder_path)
  else ret tt.

(** [init], lines 34-41: one entry of the working directory. *)
Definition scaffold_project (current_dir subfolder : string) : M unit :=
  let subfolder_path := path_join current_dir subfolder in
  d <- path_isdir [subfolder] ;;
  if d && contains MARKER subfolder then
    for_each kinds (scaffold_folder subfolder_path subfolder)
  else ret tt.

(** [init], lines 44-61: the [.gitignore] entry. *)
Definition update_gitignore : M unit :=
  has_gitignore <- path_exists [".gitignore"] ;;
  if has_gitignore then
    gitignore_lines <- read_lines [".gitignore"] ;;
    if negb (str_in (".org" ^^ nl) gitignore_lines)
       && negb (str_in ".org" gitignore_lines) then
      append_text [".gitignore"] ("/.org" ^^ nl) ;;
      print "Added .org to existing .gitignore"
    else print ".org is already listed in .gitignore"
  else
    write_text [".gitignore"] (".org" ^^ nl) ;;
    print "Created .gitignore and added .org".

(** [init], lines 28-61: what runs once [.org] is known not to be there. *)
Definition init_scaffold (current_dir : string) : M unit :=
  makedirs [".org"] ;;
  print ("Created .org directory in " ^^ current_dir) ;;
  subfolders <- listdir ;;
  for_each subfolders (scaffold_project current_dir) ;;
  update_gitignore.

(** The test of line 51 on the text of a [.gitignore]. *)
Definition org_listed (text : string) : bool :=
  str_in (".org" ^^ nl) (readlines text) || str_in ".org" (readlines text).

(** The children of a marked subdirectory after [init]: what was there, and
    an empty folder for each kind that had no entry. *)
Definition scaffolded (children : listing) (name : string) : option Node :=
  match lookup name children with
  | Some x => Some x
  | None => if str_in name kinds then Some (Dir []) else None
  end.

(** An entry of the working directory before and after the loop of lines
    33-41: a marked directory has its children scaffolded, anything else is
    as it was. *)
Definition project_scaffolded (name : string) (before after : option Node)
  : Prop :=
  match before with
  | Some (Dir children) =>
      if contains MARKER name then
        exists children',
          after = Some (Dir children')
          /\ forall k, lookup k children' = scaffolded children k
      else after = before
  | _ => after = before
  end.

(** A working directory [init] has work to do in: entries with distinct
    names and no [.org] directory yet. *)
Definition init_fresh (w : World) : Prop :=
  NoDup (map fst (fs w)) /\ is_dir (lookup ".org" (fs w)) = false.


(** The invocation without a subcommand. *)
Definition bare_args : Args := mkArgs None "" None None None.

(** A directory with a file named [.org], a marked project that has a
    [notes] file and a [todos] folder, an unmarked folder, and a
    [.gitignore] whose last line has no end. *)
Definition cluttered_world : World :=
  mkWorld "/home/u"
    [(".org", File (Some "stray"));
     ("work_org",
      Dir [("notes", File (Some "not a folder"));
           ("todos", Dir [("a.md", File (Some "open"))])]);
     ("scratch", Dir []);
     (".gitignore", File (Some "build"))]
    (mkTerminal 24 [Quit]).

(** A text that is empty or ends with a line end. *)
Definition line_terminated (text : string) : Prop :=
  text = "" \/ exists s, text = s ^^ nl.

(** A directory whose [.org] is gone while [.gitignore] still has the line
    an earlier [init] appended. *)
Definition regrown_world : World :=
  mkWorld "/home/u"
    [(".gitignore", File (Some ("build" ^^ nl ^^ "/.org" ^^ nl)))]
    (mkTerminal 24 [Quit]).

(** A directory whose [.gitignore] is a folder. *)
Definition blocked_world : World :=
  mkWorld "/home/u"
    [("work_org", Dir []); (".gitignore", Dir [])]
    (mkTerminal 24 [Quit]).

(* ===================================================================== *)
(** ** The runs of the command line *)

Example sample_load :
  load_files_from_subdir sample_views "todos" "/home/u" sample_fs
  = sample_todos.
Proof. reflexivity. Qed.

Example sample_exact :
  Views.exact_search sample_todos (Some "status") (Some "open")
  = [todo "/home/u/work_org/todos/a.md" "open";
     todo "/home/u/work_org/todos/b.md" "open"].
Proof. reflexivity. Qed.

Example sample_sort_ascending :
  map rawContent (Views.sort_items sample_todos (Some "status") false)
  = ["done"; "open"; "open"].
Proof. reflexivity. Qed.

Example sample_sort_descending :
  map rawContent (Views.sort_items sample_todos (Some "status") true)
  = ["open"; "open"; "done"].
Proof. reflexivity. Qed.

Example sample_view_run :
  main sample_views passing_validation
    (view_args "todos" (Some "es") (Some "status") (Some "done")) sample_world
  = Ok tt sample_world
      [EValidate; EAcquire; ELoad "todos";
       EExact (Some "status") (Some "done");
       EDisplay [todo "/home/u/work_org/todos/c.md" "done"] "todos"
         [Rows [(true, todo "/home/u/work_org/todos/c.md" "done")];
          Rows [(true, todo "/home/u/work_org/todos/c.md" "done")];
          Rows [(true, todo "/home/u/work_org/todos/c.md" "done")]];
       ERelease].
Proof. reflexivity. Qed.

Example sample_init_run :
  events (main sample_views scaffold_validation
            (mkArgs (Some "init") "" None None None) bare_world)
  = [EPrint "Created .org directory in /home/u";
     EPrint "Created: /home/u/work_org/notes";
     EPrint "Created: /home/u/work_org/events";
     EPrint "Created .gitignore and added .org"].
Proof. reflexivity. Qed.

Example sample_init_files :
  fs (world_of (main sample_views scaffold_validation
                  (mkArgs (Some "init") "" None None None) bare_world))
  = [("work_org",
      Dir [("todos", Dir [("a.md", File (Some "open"))]);
           ("notes", Dir []);
           ("events", Dir [])]);
     (".org", Dir []);
     (".gitignore", File (Some (".org" ^^ nl)))].
Proof. reflexivity. Qed.

Example sample_init_again :
  main sample_views passing_validation
    (mkArgs (Some "init") "" None None None) sample_world
  = Ok tt sample_world
      [EPrint "Directory '/home/u' is already initialized for org."].
Proof. reflexivity. Qed.

Section CliFacts.

Variable views : ViewsModule.
Variable run_validation : Validator.

Lemma load_entries_run (file_type : string) (w : World) :
  load_entries views file_type w
  = Ok (full_load views file_type w) w
       (events (load_entries views file_type w)).
Proof.
  unfold full_load, load_entries.
  repeat match goal with
         | |- context [if ?b then _ else _] => destruct b
         end; reflexivity.
Qed.

(** Loading logs calls of the loader only. *)
Lemma load_entries_log (file_type : string) (w : World) :
  Forall (fun e => exists k, e = ELoad k)
    (events (load_entries views file_type w)).
Proof.
  unfold load_entries.
  repeat match goal with
         | |- context [if ?b then _ else _] => destruct b
         end; cbn; repeat constructor; eauto.
Qed.

Lemma apply_search_run (c : Collection) (sp st : pystr) (ex : bool)
    (w : World) :
  apply_search views c sp st ex w
  = Ok (searched views c sp st ex) w (search_log sp st ex).
Proof.
  unfold apply_search, searched, search_log.
  destruct (truthy sp && truthy st); [destruct ex|]; reflexivity.
Qed.

Lemma apply_sort_run (c : Collection) (so : pystr) (rv : bool)
    (w : World) :
  apply_sort views c so rv w
  = Ok (sorted_by views c so rv) w (sort_log so rv).
Proof.
  unfold apply_sort, sorted_by, sort_log.
  destruct (truthy so); reflexivity.
Qed.

(** Every call of [display_graphical_view] returns, with the terminal
    acquired first and released last. *)
Lemma display_graphical_view_run (ft : string) (sp st : pystr) (ex : bool)
    (so : pystr) (rv : bool) (w : World) :
  display_graphical_view views ft sp st ex so rv w
  = Ok tt w
      (EAcquire
       :: events (load_entries views ft w)
       ++ search_log sp st ex
       ++ sort_log so rv
       ++ [EDisplay (final_view views ft sp st ex so rv w) ft
             (display_files_with_view views (term w)
                (final_view views ft sp st ex so rv w) ft);
           ERelease]).
Proof.
  unfold display_graphical_view, curses_wrapper, inner, final_view.
  unfold bind at 1. cbn [emit].
  unfold finally, bind.
  rewrite load_entries_run, apply_search_run, apply_sort_run.
  cbn [emit]. unfold emit. cbn.
  rewrite <- !app_assoc. reflexivity.
Qed.

Lemma displayed_app (t1 t2 : list Ev) :
  displayed (t1 ++ t2) = displayed t1 ++ displayed t2.
Proof. apply flat_map_app. Qed.

Lemma screens_app (t1 t2 : list Ev) :
  screens (t1 ++ t2) = screens t1 ++ screens t2.
Proof. apply flat_map_app. Qed.

Lemma query_calls_app (t1 t2 : list Ev) :
  query_calls (t1 ++ t2) = query_calls t1 ++ query_calls t2.
Proof. apply filter_app. Qed.

Lemma loads_only (t : list Ev) :
  Forall (fun e => exists k, e = ELoad k) t ->
  displayed t = [] /\ screens t = [] /\ query_calls t = [].
Proof.
  induction 1 as [|e t [k ->] _ (Hd & Hs & Hq)]; [easy|].
  repeat split; [exact Hd | exact Hs | exact Hq].
Qed.

Lemma displayed_search_log (sp st : pystr) (ex : bool) :
  displayed (search_log sp st ex) = [].
Proof.
  unfold search_log.
  destruct (truthy sp && truthy st); [destruct ex|]; reflexivity.
Qed.

Lemma displayed_sort_log (so : pystr) (rv : bool) :
  displayed (sort_log so rv) = [].
Proof. unfold sort_log. destruct (truthy so); reflexivity. Qed.

Lemma query_calls_search_log (sp st : pystr) (ex : bool) :
  query_calls (search_log sp st ex) = search_log sp st ex.
Proof.
  unfold search_log.
  destruct (truthy sp && truthy st); [destruct ex|]; reflexivity.
Qed.

Lemma query_calls_sort_log (so : pystr) (rv : bool) :
  query_calls (sort_log so rv) = sort_log so rv.
Proof. unfold sort_log. destruct (truthy so); reflexivity. Qed.

(** One session per call, on the collection left by the three steps. *)
Lemma displayed_display_graphical_view (ft : string) (sp st : pystr)
    (ex : bool) (so : pystr) (rv : bool) (w : World) :
  displayed (events (display_graphical_view views ft sp st ex so rv w))
  = [final_view views ft sp st ex so rv w].
Proof.
  rewrite display_graphical_view_run. cbn [events].
  change (EAcquire :: ?t) with ([EAcquire] ++ t).
  rewrite !displayed_app, displayed_search_log, displayed_sort_log.
  destruct (loads_only (load_entries_log ft w)) as (-> & _).
  reflexivity.
Qed.

Lemma query_calls_display_graphical_view (ft : string) (sp st : pystr)
    (ex : bool) (so : pystr) (rv : bool) (w : World) :
  query_calls (events (display_graphical_view views ft sp st ex so rv w))
  = search_log sp st ex ++ sort_log so rv.
Proof.
  rewrite display_graphical_view_run. cbn [events].
  change (EAcquire :: ?t) with ([EAcquire] ++ t).
  rewrite !query_calls_app, query_calls_search_log, query_calls_sort_log.
  destruct (loads_only (load_entries_log ft w)) as (_ & _ & ->).
  cbn. now rewrite app_nil_r.
Qed.

(** The six branches of the dispatch, as the call each one makes. *)
Lemma view_command_cases (args : Args) :
  let ft := file_type args in
  let sc := search_command args in
  let sp := search_prop args in
  let st := search_term args in
  (py_eq sc "s" && truthy sp && truthy st = true
   /\ view_command views args
      = display_graphical_view views ft sp st false None false)
  \/ (py_eq sc "es" && truthy sp && truthy st = true
      /\ view_command views args
         = display_graphical_view views ft sp st true None false)
  \/ (py_eq sc "o" && truthy sp = true
      /\ view_command views args
         = display_graphical_view views ft None None false sp false)
  \/ (py_eq sc "r" && truthy sp = true
      /\ view_command views args
         = display_graphical_view views ft None None false sp true)
  \/ (view_command views args
      = display_graphical_view views ft None None false None false).
Proof.
  cbv zeta. unfold view_command.
  destruct (py_eq (search_command args) "s" && truthy (search_prop args)
            && truthy (search_term args)); [now left|].
  destruct (py_eq (search_command args) "es" && truthy (search_prop args)
            && truthy (search_term args)); [now right; left|].
  destruct (py_eq (search_command args) "o" && truthy (search_prop args));
    [now right; right; left|].
  destruct (py_eq (search_command args) "r" && truthy (search_prop args));
    [now right; right; right; left|].
  right; right; right; right.
  destruct (py_eq (search_command args) "a"); reflexivity.
Qed.

Lemma view_command_run (args : Args) (w : World) :
  view_command views args w
  = Ok tt w (events (view_command views args w)).
Proof.
  destruct (view_command_cases args)
    as [[_ ->]|[[_ ->]|[[_ ->]|[[_ ->]| ->]]]];
    now rewrite display_graphical_view_run.
Qed.

(** A [view] command line: the validator first; the dispatch only when it
    returns. *)
Lemma main_view_run (ft : string) (sc sp st : pystr) (w : World) :
  main views run_validation (view_args ft sc sp st) w
  = match val_raised (run_validation (cwd w) (fs w)) with
    | Some e =>
        Raise e (validated run_validation w)
          (validation_log run_validation w)
    | None =>
        Ok tt (validated run_validation w)
          (validation_log run_validation w
           ++ events (view_command views (view_args ft sc sp st)
                        (validated run_validation w)))
    end.
Proof.
  unfold main, view_args. cbn [command py_eq].
  change ("view" =? "init") with false. change ("view" =? "view") with true.
  cbv iota. unfold bind, call_validation.
  fold (validated run_validation w). fold (validation_log run_validation w).
  destruct (val_raised (run_validation (cwd w) (fs w))); [reflexivity|].
  now rewrite view_command_run.
Qed.

End CliFacts.

(* ===================================================================== *)
(** ** The [view] command *)

(** Decide the comparisons of a command with the literals of the
    dispatch. *)
Ltac branch :=
  cbn [py_eq];
  repeat match goal with
         | |- context [String.eqb ?a ?b] =>
             let v := eval vm_compute in (String.eqb a b) in
             match v with
             | true => change (String.eqb a b) with true
             | false => change (String.eqb a b) with false
             end
         end.

Section ViewCommand.

Variable views : ViewsModule.
Variable run_validation : Validator.

Lemma validation_log_quiet (w : World) :
  displayed (validation_log run_validation w) = []
  /\ query_calls (validation_log run_validation w) = []
  /\ browsing_calls (validation_log run_validation w) = [].
Proof.
  unfold validation_log.
  induction (val_output (run_validation (cwd w) (fs w))) as [|m l IH];
    [easy|].
  destruct IH as (Hd & Hq & Hb). repeat split; assumption.
Qed.

(** What is shown by a [view] command once the validator has returned. *)
Lemma displayed_main_view (ft : string) (sc sp st : pystr) (w : World) :
  val_raised (run_validation (cwd w) (fs w)) = None ->
  displayed (events (main views run_validation (view_args ft sc sp st) w))
  = displayed (events (view_command views (view_args ft sc sp st)
                         (validated run_validation w))).
Proof.
  intros Hval. rewrite main_view_run, Hval. cbn [events].
  rewrite displayed_app.
  now destruct (validation_log_quiet w) as (-> & _).
Qed.

Lemma query_calls_main_view (ft : string) (sc sp st : pystr) (w : World) :
  query_calls (events (main views run_validation (view_args ft sc sp st) w))
  = match val_raised (run_validation (cwd w) (fs w)) with
    | Some _ => []
    | None =>
        query_calls (events (view_command views (view_args ft sc sp st)
                               (validated run_validation w)))
    end.
Proof.
  rewrite main_view_run.
  destruct (validation_log_quiet w) as (_ & Hq & _).
  destruct (val_raised (run_validation (cwd w) (fs w))); cbn [events];
    [assumption|].
  now rewrite query_calls_app, Hq.
Qed.

(** C1: for a [view] command whose validation returns, exactly one
    collection is handed to the session, and it is: for [s] with a
    property and a term the fuzzy search of the fresh full load, for [es]
    the exact search, for [o] with a property the sort with
    [reverse=False], for [r] the sort with [reverse=True], and for [a] or
    no command the full load itself. *)
Theorem view_dispatch_transform (ft : string) (sc sp st : pystr)
    (w : World) :
  val_raised (run_validation (cwd w) (fs w)) = None ->
  let full := full_load views ft (validated run_validation w) in
  let shown :=
    displayed
      (events (main views run_validation (view_args ft sc sp st) w)) in
  (sc = Some "s" -> truthy sp = true -> truthy st = true ->
   shown = [fuzzy_search views full sp st])
  /\ (sc = Some "es" -> truthy sp = true -> truthy st = true ->
      shown = [exact_search views full sp st])
  /\ (sc = Some "o" -> truthy sp = true ->
      shown = [sort_items views full sp false])
  /\ (sc = Some "r" -> truthy sp = true ->
      shown = [sort_items views full sp true])
  /\ (sc = Some "a" \/ sc = None -> shown = [full]).
Proof.
  intros Hval full shown. subst shown.
  rewrite (displayed_main_view _ _ _ _ _ Hval).
  unfold view_command, view_args.
  cbn [search_command search_prop search_term file_type].
  repeat split.
  - intros -> Hp Ht. branch. rewrite Hp, Ht. cbv [andb].
    rewrite displayed_display_graphical_view.
    unfold final_view, searched, sorted_by. now rewrite Hp, Ht.
  - intros -> Hp Ht. branch. rewrite Hp, Ht. cbv [andb].
    rewrite displayed_display_graphical_view.
    unfold final_view, searched, sorted_by. now rewrite Hp, Ht.
  - intros -> Hp. branch. rewrite Hp. cbv [andb].
    rewrite displayed_display_graphical_view.
    unfold final_view, searched, sorted_by. now rewrite Hp.
  - intros -> Hp. branch. rewrite Hp. cbv [andb].
    rewrite displayed_display_graphical_view.
    unfold final_view, searched, sorted_by. now rewrite Hp.
  - intros [-> | ->]; branch; cbv [andb];
      now rewrite displayed_display_graphical_view.
Qed.

(** C2: an empty or missing search term, or an absent property, makes the
    search step the identity, and an absent property makes the sort step
    the identity: no call of the query engine, no exception, the
    collection unchanged; so the session of [display_graphical_view] and
    of a [view] command line is opened on the loaded collection itself. *)
Theorem empty_query_is_identity (entries : Collection) (ft : string)
    (sc sp st so : pystr) (ex rv : bool) (w : World) :
  (truthy sp = false \/ truthy st = false ->
   apply_search views entries sp st ex w = Ok entries w [])
  /\ (truthy so = false ->
      apply_sort views entries so rv w = Ok entries w [])
  /\ (truthy sp = false \/ truthy st = false -> truthy so = false ->
      let o := display_graphical_view views ft sp st ex so rv w in
      returns o = true
      /\ query_calls (events o) = []
      /\ displayed (events o) = [full_load views ft w])
  /\ (val_raised (run_validation (cwd w) (fs w)) = None ->
      truthy sp = false
      \/ ((sc = Some "s" \/ sc = Some "es") /\ truthy st = false) ->
      let o := main views run_validation (view_args ft sc sp st) w in
      returns o = true
      /\ query_calls (events o) = []
      /\ displayed (events o)
         = [full_load views ft (validated run_validation w)]).
Proof.
  assert (Hs : truthy sp = false \/ truthy st = false ->
               truthy sp && truthy st = false).
  { intros [-> | ->]; [reflexivity | apply andb_false_r]. }
  repeat split.
  - intros H. rewrite apply_search_run.
    unfold searched, search_log. now rewrite (Hs H).
  - intros H. rewrite apply_sort_run.
    unfold sorted_by, sort_log. now rewrite H.
  - now rewrite display_graphical_view_run.
  - rewrite query_calls_display_graphical_view.
    unfold search_log, sort_log. now rewrite (Hs H), H0.
  - rewrite displayed_display_graphical_view.
    unfold final_view, searched, sorted_by. now rewrite (Hs H), H0.
  - rewrite main_view_run, H. reflexivity.
  - rewrite query_calls_main_view, H.
    unfold view_command, view_args.
    cbn [search_command search_prop search_term file_type].
    destruct H0 as [Hp | [[-> | ->] Ht]].
    + rewrite Hp, !andb_false_r. cbv [andb].
      destruct (py_eq sc "a");
        now rewrite query_calls_display_graphical_view.
    + branch. rewrite Ht, !andb_false_r. cbv [andb].
      now rewrite query_calls_display_graphical_view.
    + branch. rewrite Ht, !andb_false_r. cbv [andb].
      now rewrite query_calls_display_graphical_view.
  - rewrite (displayed_main_view _ _ _ _ _ H).
    unfold view_command, view_args.
    cbn [search_command search_prop search_term file_type].
    destruct H0 as [Hp | [[-> | ->] Ht]].
    + rewrite Hp, !andb_false_r. cbv [andb].
      destruct (py_eq sc "a");
        now rewrite displayed_display_graphical_view.
    + branch. rewrite Ht, !andb_false_r. cbv [andb].
      now rewrite displayed_display_graphical_view.
    + branch. rewrite Ht, !andb_false_r. cbv [andb].
      now rewrite displayed_display_graphical_view.
Qed.

(** C4: for every working directory, loading kind [all] gives the notes
    load, then the todos load, then the events load, appended in that
    order (so each load keeps its own order), the loader being called in
    that order; and that concatenation is what a plain [view all] opens
    the session on. *)
Theorem load_all_is_concatenation (w : World) :
  let load_kind k := load_files_from_subdir views k (cwd w) (fs w) in
  full_load views "all" w
  = load_kind "notes" ++ load_kind "todos" ++ load_kind "events"
  /\ load_entries views "all" w
     = Ok (load_kind "notes" ++ load_kind "todos" ++ load_kind "events") w
          [ELoad "notes"; ELoad "todos"; ELoad "events"]
  /\ displayed
       (events (display_graphical_view views "all"
                  None None false None false w))
     = [load_kind "notes" ++ load_kind "todos" ++ load_kind "events"].
Proof.
  cbv zeta. split; [reflexivity | split; [reflexivity|]].
  rewrite displayed_display_graphical_view. reflexivity.
Qed.

(** C5: in every [view] invocation the validator runs first and to its
    end.  When it raises, the exception leaves [main] with nothing but
    the validator's own output logged: no terminal acquired, nothing
    loaded, no session.  When it returns, the terminal is acquired only
    after the validator's last output, and the run returns with the
    terminal released. *)
Theorem validation_precedes_browsing (ft : string) (sc sp st : pystr)
    (w : World) :
  let o := main views run_validation (view_args ft sc sp st) w in
  let log := EValidate
             :: map EPrint (val_output (run_validation (cwd w) (fs w))) in
  browsing_calls log = []
  /\ match val_raised (run_validation (cwd w) (fs w)) with
     | Some e =>
         o = Raise e (validated run_validation w) log
         /\ browsing_calls (events o) = []
     | None =>
         exists rest,
           o = Ok tt (validated run_validation w)
                 (log ++ EAcquire :: rest ++ [ERelease])
           /\ displayed rest <> []
     end.
Proof.
  cbv zeta. fold (validation_log run_validation w).
  destruct (validation_log_quiet w) as (_ & _ & Hb).
  split; [assumption|].
  rewrite main_view_run.
  destruct (val_raised (run_validation (cwd w) (fs w))) as [e|].
  - split; [reflexivity | assumption].
  - set (w1 := validated run_validation w).
    destruct (view_command_cases views (view_args ft sc sp st))
      as [[_ ->]|[[_ ->]|[[_ ->]|[[_ ->]| ->]]]];
      rewrite display_graphical_view_run; cbn [events];
      unfold view_args;
      cbn [file_type search_command search_prop search_term];
      match goal with
      | |- context [EAcquire :: ?a ++ ?b ++ ?c ++ [?d; ERelease]] =>
          exists (a ++ b ++ c ++ [d]);
          split;
          [ now rewrite <- !app_assoc
          | rewrite !displayed_app, displayed_search_log,
              displayed_sort_log;
            destruct (loads_only (load_entries_log views ft w1))
              as (-> & _);
            discriminate ]
      end.
Qed.

(** The Query Engine calls a [view] command can make: none or one. *)
Lemma view_command_query_calls (ft : string) (sc sp st : pystr)
    (w : World) :
  let q := query_calls
             (events (view_command views (view_args ft sc sp st) w)) in
  q = [] \/ q = [EFuzzy sp st] \/ q = [EExact sp st]
  \/ q = [ESort sp false] \/ q = [ESort sp true].
Proof.
  cbv zeta.
  destruct (view_command_cases views (view_args ft sc sp st))
    as [[H ->]|[[H ->]|[[H ->]|[[H ->]| ->]]]];
    cbn [view_args search_command search_prop search_term file_type] in *;
    rewrite query_calls_display_graphical_view;
    unfold search_log, sort_log.
  - apply andb_prop in H. destruct H as [H Ht].
    apply andb_prop in H. destruct H as [_ Hp].
    rewrite Hp, Ht. auto.
  - apply andb_prop in H. destruct H as [H Ht].
    apply andb_prop in H. destruct H as [_ Hp].
    rewrite Hp, Ht. auto.
  - apply andb_prop in H. destruct H as [_ Hp]. rewrite Hp. auto 6.
  - apply andb_prop in H. destruct H as [_ Hp]. rewrite Hp. auto 6.
  - auto.
Qed.

(** C10: a [view] invocation makes at most one Query Engine call before
    the session, never a search together with a sort: every branch of the
    dispatch calls [display_graphical_view] with the sort arguments or the
    search arguments left out.  The display function itself takes both:
    called directly it makes one call for a search and one more for a
    sort. *)
Theorem view_applies_at_most_one_transform (ft : string) (sc sp st : pystr)
    (w : World) :
  let t := events (main views run_validation (view_args ft sc sp st) w) in
  (length (query_calls t) <= 1)%nat
  /\ (filter is_search t = [] \/ filter is_sort t = [])
  /\ (exists sp' st' ex so rv,
        view_command views (view_args ft sc sp st)
        = display_graphical_view views ft sp' st' ex so rv
        /\ (so = None \/ (sp' = None /\ st' = None)))
  /\ (forall ft' sp' st' ex so rv w',
        query_calls
          (events (display_graphical_view views ft' sp' st' ex so rv w'))
        = search_log sp' st' ex ++ sort_log so rv)
  /\ (forall ft' ex rv w',
        query_calls
          (events (display_graphical_view views ft'
                     (Some "status") (Some "open") ex
                     (Some "status") rv w'))
        = [if ex then EExact (Some "status") (Some "open")
           else EFuzzy (Some "status") (Some "open");
           ESort (Some "status") rv]).
Proof.
  cbv zeta.
  assert (Hq :
    let q := query_calls
               (events (main views run_validation
                          (view_args ft sc sp st) w)) in
    q = [] \/ q = [EFuzzy sp st] \/ q = [EExact sp st]
    \/ q = [ESort sp false] \/ q = [ESort sp true]).
  { cbv zeta. rewrite query_calls_main_view.
    destruct (val_raised (run_validation (cwd w) (fs w))); [now left|].
    apply view_command_query_calls. }
  cbv zeta in Hq.
  assert (Hsplit : forall t,
    filter is_search t = filter is_search (query_calls t)
    /\ filter is_sort t = filter is_sort (query_calls t)).
  { induction t as [|e t [IH1 IH2]]; [easy|].
    destruct e; cbn; rewrite ?IH1, ?IH2; split; reflexivity. }
  repeat split.
  - destruct Hq as [-> | [-> | [-> | [-> | ->]]]]; cbn; lia.
  - destruct (Hsplit (events (main views run_validation
                                (view_args ft sc sp st) w))) as [-> ->].
    destruct Hq as [-> | [-> | [-> | [-> | ->]]]]; cbn; auto.
  - destruct (view_command_cases views (view_args ft sc sp st))
      as [[_ ->]|[[_ ->]|[[_ ->]|[[_ ->]| ->]]]];
      do 5 eexists; (split; [reflexivity | auto]).
  - intros. apply query_calls_display_graphical_view.
  - intros ft' ex rv w'.
    rewrite query_calls_display_graphical_view. reflexivity.
Qed.

End ViewCommand.

(* ===================================================================== *)
(** ** The Query Engine *)

Section QueryEngine.

Import Views.

Lemma prefix_refl (s : string) : prefix s s = true.
Proof.
  induction s as [|a s IH]; [reflexivity|].
  cbn. destruct (ascii_dec a a); [assumption | congruence].
Qed.

Lemma contains_refl (s : string) : contains s s = true.
Proof.
  destruct s as [|a s]; [reflexivity|].
  change (contains (String a s) (String a s))
    with (prefix (String a s) (String a s) || contains (String a s) s).
  now rewrite prefix_refl.
Qed.

(** A text matches itself, whatever the case of its letters. *)
Lemma fuzzy_match_refl (s : string) : fuzzy_match s s = true.
Proof. unfold fuzzy_match. now rewrite contains_refl. Qed.

(** C6: every record the exact search of a collection returns for a
    property and a term is returned by the fuzzy search for the same
    property and term. *)
Theorem exact_search_subset_fuzzy (c : Collection) (prop term : pystr)
    (r : Entry) :
  In r (exact_search c prop term) -> In r (fuzzy_search c prop term).
Proof.
  unfold exact_search, fuzzy_search.
  destruct prop as [p|]; [|trivial].
  destruct (is_empty_term term); [trivial|].
  rewrite !filter_In. intros [Hin Hv]. split; [assumption|].
  destruct (get p r) as [v|]; [|discriminate].
  apply String.eqb_eq in Hv. subst v. apply fuzzy_match_refl.
Qed.

(** The exact matches appear in the fuzzy result in the same order. *)
Lemma exact_search_filters_fuzzy (c : Collection) (p : string)
    (term : pystr) :
  is_empty_term term = false ->
  exact_search c (Some p) term
  = filter (fun r => match get p r with
                     | Some v => v =? term_text term
                     | None => false
                     end)
      (fuzzy_search c (Some p) term).
Proof.
  intros He. unfold exact_search, fuzzy_search. rewrite He.
  induction c as [|r c IH]; [reflexivity|].
  cbn [filter]. destruct (get p r) as [v|] eqn:Hg.
  - destruct (v =? term_text term) eqn:Hv.
    + apply String.eqb_eq in Hv. subst v.
      rewrite fuzzy_match_refl. cbn [filter].
      rewrite Hg, String.eqb_refl. now rewrite IH.
    + destruct (fuzzy_match (term_text term) v); [|assumption].
      cbn [filter]. now rewrite Hg, Hv.
  - destruct (fuzzy_match (term_text term) (rawContent r)); [|assumption].
    cbn [filter]. now rewrite Hg.
Qed.

(** An absent property or an empty term leaves a collection as it is, in
    each of the three operations. *)
Lemma query_engine_noop (c : Collection) (prop term : pystr) (rv : bool) :
  (prop = None \/ truthy term = false ->
   fuzzy_search c prop term = c /\ exact_search c prop term = c)
  /\ sort_items c None rv = c.
Proof.
  split; [|reflexivity].
  unfold fuzzy_search, exact_search, is_empty_term.
  intros [-> | ->]; [now split|]. now destruct prop.
Qed.

(** *** Sorting *)

Lemma insert_Forall (P : Entry -> Prop) (p : string) (x : Entry)
    (l : Collection) :
  P x -> Forall P l -> Forall P (insert p x l).
Proof.
  intros Hx. induction 1 as [|y l Hy Hl IH]; cbn.
  - now constructor.
  - destruct (key p x <=? key p y)%string; repeat constructor; assumption.
Qed.

Lemma stable_sort_Forall (P : Entry -> Prop) (p : string) (l : Collection) :
  Forall P l -> Forall P (stable_sort p l).
Proof.
  induction 1 as [|x l Hx Hl IH]; cbn; [constructor|].
  now apply insert_Forall.
Qed.

Lemma insert_sorted (p : string) (x : Entry) (l : Collection) :
  Sorted (key_le p) l -> Sorted (key_le p) (insert p x l).
Proof.
  induction 1 as [|y l Hl IH Hy]; cbn.
  - repeat constructor.
  - destruct (key p x <=? key p y)%string eqn:Hxy.
    + repeat constructor; assumption.
    + constructor; [assumption|].
      assert (Hyx : key_le p y x).
      { destruct (String.leb_total (key p x) (key p y)); congruence. }
      destruct l as [|z l]; cbn.
      * repeat constructor. assumption.
      * destruct (key p x <=? key p z)%string; constructor;
          [assumption | now apply HdRel_inv in Hy].
Qed.

Lemma stable_sort_sorted (p : string) (l : Collection) :
  Sorted (key_le p) (stable_sort p l).
Proof.
  induction l as [|x l IH]; cbn; [constructor | now apply insert_sorted].
Qed.

(** Sorting what is in order already changes nothing. *)
Lemma stable_sort_of_sorted (p : string) (l : Collection) :
  Sorted (key_le p) l -> stable_sort p l = l.
Proof.
  induction 1 as [|x l Hl IH Hx]; [reflexivity|].
  cbn. rewrite IH. destruct Hx as [|y l Hxy]; [reflexivity|].
  cbn. unfold key_le in Hxy. now rewrite Hxy.
Qed.

Lemma filter_all (f : Entry -> bool) (l : Collection) :
  Forall (fun r => f r = true) l -> filter f l = l.
Proof.
  induction 1 as [|x l Hx Hl IH]; [reflexivity|].
  cbn. now rewrite Hx, IH.
Qed.

Lemma filter_none (f : Entry -> bool) (l : Collection) :
  Forall (fun r => f r = false) l -> filter f l = [].
Proof.
  induction 1 as [|x l Hx Hl IH]; [reflexivity|].
  cbn. now rewrite Hx, IH.
Qed.

Lemma present_have (p : string) (c : Collection) :
  Forall (fun r => has p r = true) (stable_sort p (filter (has p) c)).
Proof.
  apply stable_sort_Forall, Forall_forall.
  intros r Hr. now apply filter_In in Hr.
Qed.

Lemma missing_lack (p : string) (c : Collection) :
  Forall (fun r => has p r = false)
    (filter (fun r => negb (has p r)) c).
Proof.
  apply Forall_forall. intros r Hr. apply filter_In in Hr.
  now apply negb_true_iff.
Qed.

Lemma ascending_idempotent (p : string) (c : Collection) :
  ascending p (ascending p c) = ascending p c.
Proof.
  unfold ascending at 1.
  assert (Hp : filter (has p) (ascending p c)
               = stable_sort p (filter (has p) c)).
  { unfold ascending. rewrite filter_app.
    rewrite (filter_all _ (present_have p c)).
    rewrite (filter_none _ (missing_lack p c)). apply app_nil_r. }
  assert (Hm : filter (fun r => negb (has p r)) (ascending p c)
               = filter (fun r => negb (has p r)) c).
  { unfold ascending. rewrite filter_app.
    rewrite filter_none.
    - rewrite filter_all; [reflexivity|].
      eapply Forall_impl; [|apply missing_lack].
      cbn. now intros r ->.
    - eapply Forall_impl; [|apply present_have].
      cbn. now intros r ->. }
  rewrite Hp, Hm.
  now rewrite (stable_sort_of_sorted (stable_sort_sorted p _)).
Qed.

(** C7: for every collection and property, the descending sort is the
    ascending order reversed, and sorting the ascending result with
    [reverse=true] gives its element-wise reverse: the records with the
    property in order and then those without it become those without it,
    reversed, and then those with it, reversed. *)
Theorem reverse_sort_is_reversal (c : Collection) (p : string) :
  let asc := sort_items c (Some p) false in
  let present := stable_sort p (filter (has p) c) in
  let missing := filter (fun r => negb (has p r)) c in
  sort_items asc (Some p) true = rev asc
  /\ sort_items c (Some p) true = rev asc
  /\ asc = present ++ missing
  /\ sort_items asc (Some p) true = rev missing ++ rev present
  /\ Forall (fun r => has p r = true) present
  /\ Forall (fun r => has p r = false) missing
  /\ Sorted (key_le p) present.
Proof.
  cbv zeta. cbn [sort_items].
  rewrite ascending_idempotent.
  repeat split.
  - unfold ascending. apply rev_app_distr.
  - apply present_have.
  - apply missing_lack.
  - apply stable_sort_sorted.
Qed.

End QueryEngine.

(* ===================================================================== *)
(** ** The Browser Session *)

Section BrowserSession.

Import Views.

Lemma clamp_range (n : nat) (i : Z) :
  (n = 0%nat -> clamp n i = 0%Z)
  /\ (n <> 0%nat -> (0 <= clamp n i <= Z.of_nat n - 1)%Z).
Proof. unfold clamp. lia. Qed.

Lemma cursor_in_range_intro (full view : Collection) (i : Z)
    (kf : string) (m : Mode) :
  (length view = 0%nat -> i = 0%Z) ->
  (length view <> 0%nat -> (0 <= i <= Z.of_nat (length view) - 1)%Z) ->
  cursor_in_range (mkSession full view i kf m).
Proof.
  intros H0 H1. unfold cursor_in_range. cbn. split.
  - intros ->. now apply H0.
  - intros Hne. apply H1. now destruct view.
Qed.

Lemma cursor_in_range_top (full view : Collection) (kf : string)
    (m : Mode) :
  cursor_in_range (mkSession full view 0 kf m).
Proof. apply cursor_in_range_intro; lia. Qed.

Lemma start_in_range (full view : Collection) (kf : string) :
  cursor_in_range (start full view kf).
Proof. apply cursor_in_range_top. Qed.

(** Every transition keeps the selected row inside the view. *)
Lemma step_in_range (s : Session) (i : Input) :
  cursor_in_range s -> cursor_in_range (step s i).
Proof.
  intros Hs. unfold step.
  destruct (mode s) eqn:Hm; [|assumption].
  destruct i; try apply cursor_in_range_top.
  - apply cursor_in_range_intro; apply clamp_range.
  - apply cursor_in_range_intro; apply clamp_range.
  - destruct s as [full view c kf m]. exact Hs.
Qed.

Lemma run_in_range (inputs : list Input) (s : Session) :
  cursor_in_range s -> cursor_in_range (run s inputs).
Proof.
  revert s. induction inputs as [|i inputs IH]; intros s Hs;
    [assumption|].
  cbn. apply IH. now apply step_in_range.
Qed.

(** C9: in every state a session reaches from its start by any sequence
    of input events, the cursor is 0 when the view is empty and otherwise
    lies between 0 and the last index; while browsing, a move up takes it
    to the row above and stays on row 0, a move down takes it to the row
    below and stays on the last row, the view being left as it is. *)
Theorem cursor_stays_in_range (full view : Collection) (kf : string)
    (inputs : list Input) :
  let s := run (start full view kf) inputs in
  let n := Z.of_nat (length (viewCollection s)) in
  (viewCollection s = [] -> cursorIndex s = 0%Z)
  /\ (viewCollection s <> [] -> (0 <= cursorIndex s <= n - 1)%Z)
  /\ (0 <= cursorIndex s)%Z
  /\ (mode s = Browsing ->
      cursorIndex (step s MoveUp)
      = (if (cursorIndex s =? 0)%Z then 0 else cursorIndex s - 1)%Z
      /\ cursorIndex (step s MoveDown)
         = (if (cursorIndex s + 1 <? n)%Z then cursorIndex s + 1
            else cursorIndex s)%Z
      /\ viewCollection (step s MoveUp) = viewCollection s
      /\ viewCollection (step s MoveDown) = viewCollection s).
Proof.
  cbv zeta.
  pose proof (run_in_range inputs (start_in_range full view kf)) as Hs.
  set (s := run (start full view kf) inputs) in *.
  destruct Hs as [He Hn].
  assert (Hc : viewCollection s = []
               \/ (0 <= cursorIndex s
                   <= Z.of_nat (length (viewCollection s)) - 1)%Z).
  { destruct (viewCollection s) as [|r l] eqn:Hv; [now left|].
    right. apply Hn. discriminate. }
  repeat split; try tauto.
  - destruct Hc as [Hc|Hc]; [rewrite (He Hc)|]; lia.
  - unfold step. rewrite H. cbn. unfold clamp.
    destruct Hc as [Hc|Hc].
    + rewrite (He Hc), Hc. reflexivity.
    + destruct (Z.eqb_spec (cursorIndex s) 0); lia.
  - unfold step. rewrite H. cbn. unfold clamp.
    destruct Hc as [Hc|Hc].
    + rewrite (He Hc), Hc. reflexivity.
    + destruct (Z.ltb_spec (cursorIndex s + 1)
                  (Z.of_nat (length (viewCollection s)))); lia.
  - unfold step. now rewrite H.
  - unfold step. now rewrite H.
Qed.

(** *** The empty session *)

Lemma step_empty (s : Session) (i : Input) :
  fullCollection s = [] -> viewCollection s = [] ->
  fullCollection (step s i) = [] /\ viewCollection (step s i) = [].
Proof.
  intros Hf Hv. unfold step. destruct (mode s); [|now split].
  destruct i as [| |ex prop tm|prop rv| |]; cbn; rewrite ?Hf, ?Hv;
    split; try reflexivity.
  - destruct ex, prop as [p|]; cbn; try reflexivity;
      now destruct (is_empty_term tm).
  - destruct prop as [p|]; [|reflexivity]. now destruct rv.
Qed.

Lemma render_empty (h : nat) (s : Session) :
  viewCollection s = [] -> render h s = NoEntries.
Proof. intros Hv. unfold render. now rewrite Hv. Qed.

(** A session on nothing draws the placeholder at every redraw. *)
Lemma frames_empty (h : nat) (inputs : list Input) (s : Session) :
  fullCollection s = [] -> viewCollection s = [] ->
  Forall (eq NoEntries) (frames h s inputs).
Proof.
  revert s. induction inputs as [|i inputs IH]; intros s Hf Hv; cbn;
    [constructor|].
  destruct (step_empty s i Hf Hv) as [Hf' Hv'].
  destruct (mode (step s i)); [|constructor].
  constructor; [now rewrite render_empty | now apply IH].
Qed.

End BrowserSession.

(* ===================================================================== *)
(** ** The Record Loader and the start of a session *)

Section LoaderFacts.

Variable parse_properties : string -> list (string * string).
Variable main_screen : Terminal -> string -> listing -> list Frame.

Local Abbreviation V := (Views.module parse_properties main_screen).

Lemma load_project_lacking (kind_name root : string) (p : string * Node) :
  lacks_kind kind_name p ->
  Views.load_project parse_properties kind_name root p = [].
Proof.
  unfold lacks_kind, Views.load_project.
  destruct (Views.kind_of_name kind_name); [|reflexivity].
  destruct (snd p) as [c|children]; [reflexivity|].
  destruct (contains MARKER (fst p)); [|reflexivity].
  now intros [-> | ->].
Qed.

Lemma load_project_unmarked (kind_name root : string) (p : string * Node) :
  contains MARKER (fst p) = false ->
  Views.load_project parse_properties kind_name root p = [].
Proof.
  intros Hm. unfold Views.load_project.
  destruct (Views.kind_of_name kind_name); [|reflexivity].
  destruct (snd p); [reflexivity|]. now rewrite Hm.
Qed.

Lemma load_nothing (kind_name root : string) (l : listing) :
  (forall p, In p l -> contains MARKER (fst p) = true ->
             lacks_kind kind_name p) ->
  Views.load_files_from_subdir parse_properties kind_name root l = [].
Proof.
  unfold Views.load_files_from_subdir.
  induction l as [|p l IH]; intros H; [reflexivity|].
  cbn [flat_map]. rewrite IH by (intros q Hq; apply H; now right).
  rewrite app_nil_r.
  destruct (contains MARKER (fst p)) eqn:Hm.
  - apply load_project_lacking, H; [now left | assumption].
  - now apply load_project_unmarked.
Qed.

Lemma searched_nothing (sp st : pystr) (ex : bool) :
  searched V [] sp st ex = [].
Proof.
  unfold searched. destruct (truthy sp && truthy st); [|reflexivity].
  destruct ex, sp as [p|]; cbn; try reflexivity;
    unfold Views.exact_search, Views.fuzzy_search;
    now destruct (Views.is_empty_term st).
Qed.

Lemma sorted_by_nothing (so : pystr) (rv : bool) :
  sorted_by V [] so rv = [].
Proof.
  unfold sorted_by. destruct (truthy so); [|reflexivity].
  destruct so as [p|]; [|reflexivity]. now destruct rv.
Qed.

(** C8: a project whose folder for the requested kind is missing or
    empty contributes no record and no failure to the load of that kind;
    when that is so for every marked project, the load is the empty
    collection, and [display_graphical_view] still acquires the terminal
    and opens the session, on the empty collection: its first frame, and
    every later one, is the placeholder. *)
Theorem missing_kind_folder_session_starts (kind_name : string)
    (sp st : pystr) (ex : bool) (so : pystr) (rv : bool) (w : World) :
  kind_name = "notes" \/ kind_name = "todos" \/ kind_name = "events" ->
  (forall p, In p (fs w) -> contains MARKER (fst p) = true ->
             lacks_kind kind_name p) ->
  (forall root p, lacks_kind kind_name p ->
                  Views.load_project parse_properties kind_name root p = [])
  /\ load_files_from_subdir V kind_name (cwd w) (fs w) = []
  /\ exists later,
       display_graphical_view V kind_name sp st ex so rv w
       = Ok tt w
           (EAcquire :: ELoad kind_name
            :: search_log sp st ex ++ sort_log so rv
            ++ [EDisplay [] kind_name (NoEntries :: later); ERelease])
       /\ Forall (eq NoEntries) later.
Proof.
  intros Hk Hfs.
  pose proof (load_nothing kind_name (cwd w) (fs w) Hfs) as Hload.
  split; [intros root p; apply load_project_lacking|].
  split; [exact Hload|].
  exists (Views.frames (height (term w))
            (Views.start [] [] kind_name) (pending (term w))).
  split; [|now apply frames_empty].
  rewrite display_graphical_view_run.
  assert (Hfull : full_load V kind_name w = []
                  /\ events (load_entries V kind_name w)
                     = [ELoad kind_name]).
  { unfold full_load, load_entries, load.
    destruct Hk as [-> | [-> | ->]]; cbn; now rewrite Hload. }
  destruct Hfull as [Hfull Hev].
  unfold final_view.
  rewrite Hfull, Hev, searched_nothing, sorted_by_nothing.
  reflexivity.
Qed.

End LoaderFacts.

(* ===================================================================== *)
(** ** The scaffold check *)

(** The invocation without a subcommand checks for [.org], lines 150-156:
    in a directory that lacks it the error is printed and nothing else
    happens. *)
Lemma bare_invocation_needs_scaffold (views : ViewsModule)
    (run_validation : Validator) (args : Args) (w : World) :
  py_eq (command args) "init" = false ->
  py_eq (command args) "view" = false ->
  py_eq (command args) "val" = false ->
  fs_at [".org"] (fs w) = None ->
  main views run_validation args w
  = Ok tt w
      [EPrint ("Error: '.org' file not found in " ^^ cwd w
               ^^ ". This directory is not initialized for org.")].
Proof.
  intros Hi Hv Hl Ho. unfold main. rewrite Hi, Hv, Hl.
  unfold bind, getcwd, path_exists, get_fs, ret, bind. rewrite Ho.
  reflexivity.
Qed.

(** The [view] branch has no test of its own for [.org], lines 123-145: it
    leaves the matter to the validator, and whenever that returns, the
    terminal is acquired. *)
Lemma view_does_not_check_scaffold (views : ViewsModule)
    (run_validation : Validator) (ft : string) (sc sp st : pystr)
    (w : World) :
  val_raised (run_validation (cwd w) (fs w)) = None ->
  returns (main views run_validation (view_args ft sc sp st) w) = true
  /\ In EAcquire
       (events (main views run_validation (view_args ft sc sp st) w)).
Proof.
  intros Hval. rewrite main_view_run, Hval. split; [reflexivity|].
  cbn [events]. apply in_or_app. right.
  destruct (view_command_cases views (view_args ft sc sp st))
    as [[_ ->]|[[_ ->]|[[_ ->]|[[_ ->]| ->]]]];
    rewrite display_graphical_view_run; now left.
Qed.

(* ===================================================================== *)
(** ** Worked instances *)

Lemma view_dispatch_transform_witness :
  let shown sc sp st :=
    displayed
      (events (main sample_views passing_validation
                 (view_args "todos" sc sp st) sample_world)) in
  shown (Some "s") (Some "status") (Some "DN")
  = [[todo "/home/u/work_org/todos/c.md" "done"]]
  /\ shown (Some "es") (Some "status") (Some "open")
     = [[todo "/home/u/work_org/todos/a.md" "open";
         todo "/home/u/work_org/todos/b.md" "open"]]
  /\ shown (Some "o") (Some "status") None
     = [[todo "/home/u/work_org/todos/c.md" "done";
         todo "/home/u/work_org/todos/a.md" "open";
         todo "/home/u/work_org/todos/b.md" "open"]]
  /\ shown (Some "r") (Some "status") None
     = [[todo "/home/u/work_org/todos/b.md" "open";
         todo "/home/u/work_org/todos/a.md" "open";
         todo "/home/u/work_org/todos/c.md" "done"]]
  /\ shown (Some "a") None None = [sample_todos].
Proof.
  cbv zeta.
  pose (T := fun sc sp st =>
               view_dispatch_transform sample_views passing_validation
                 "todos" sc sp st sample_world eq_refl).
  split; [exact (proj1 (T (Some "s") (Some "status") (Some "DN"))
                   eq_refl eq_refl eq_refl)|].
  split; [exact (proj1 (proj2 (T (Some "es") (Some "status") (Some "open")))
                   eq_refl eq_refl eq_refl)|].
  split; [exact (proj1 (proj2 (proj2 (T (Some "o") (Some "status") None)))
                   eq_refl eq_refl)|].
  split; [exact (proj1 (proj2 (proj2 (proj2
                   (T (Some "r") (Some "status") None))))
                   eq_refl eq_refl)|].
  exact (proj2 (proj2 (proj2 (proj2 (T (Some "a") None None))))
           (or_introl eq_refl)).
Defined.

Lemma empty_query_is_identity_witness :
  apply_search sample_views sample_todos (Some "status") (Some "") true
    sample_world
  = Ok sample_todos sample_world []
  /\ apply_sort sample_views sample_todos None true sample_world
     = Ok sample_todos sample_world []
  /\ displayed
       (events (display_graphical_view sample_views "todos"
                  (Some "status") (Some "") true None true sample_world))
     = [sample_todos]
  /\ displayed
       (events (main sample_views passing_validation
                  (view_args "todos" (Some "es") (Some "status") (Some ""))
                  sample_world))
     = [sample_todos].
Proof.
  destruct (empty_query_is_identity sample_views passing_validation
              sample_todos "todos" (Some "es") (Some "status") (Some "")
              None true true sample_world) as (H1 & H2 & H3 & H4).
  split; [exact (H1 (or_intror eq_refl))|].
  split; [exact (H2 eq_refl)|].
  split; [exact (proj2 (proj2 (H3 (or_intror eq_refl) eq_refl)))|].
  exact (proj2 (proj2 (H4 eq_refl
                         (or_intror (conj (or_intror eq_refl) eq_refl))))).
Defined.

Lemma exact_search_subset_fuzzy_witness :
  In (todo "/home/u/work_org/todos/b.md" "open")
     (Views.exact_search sample_todos (Some "status") (Some "open"))
  /\ In (todo "/home/u/work_org/todos/b.md" "open")
        (Views.fuzzy_search sample_todos (Some "status") (Some "open")).
Proof.
  assert (H : In (todo "/home/u/work_org/todos/b.md" "open")
                (Views.exact_search sample_todos (Some "status")
                   (Some "open"))).
  { right. left. reflexivity. }
  split; [exact H|].
  exact (exact_search_subset_fuzzy sample_todos (Some "status")
           (Some "open") _ H).
Defined.

Lemma cursor_stays_in_range_witness :
  let s := Views.run (Views.start sample_todos sample_todos "todos")
             [MoveDown; MoveDown; MoveDown] in
  (0 <= Views.cursorIndex s <= 2)%Z
  /\ Views.cursorIndex (Views.step s MoveDown) = 2%Z
  /\ Views.cursorIndex (Views.step s MoveUp) = 1%Z.
Proof.
  cbv zeta.
  destruct (cursor_stays_in_range sample_todos sample_todos "todos"
              [MoveDown; MoveDown; MoveDown]) as (_ & H2 & _ & H4).
  split.
  - apply H2. discriminate.
  - destruct (H4 eq_refl) as (Hu & Hd & _). split; [exact Hd | exact Hu].
Defined.

Lemma missing_kind_folder_session_starts_witness :
  load_files_from_subdir sample_views "notes" "/home/u" sample_fs = []
  /\ exists later,
       display_graphical_view sample_views "notes" None None false None false
         sample_world
       = Ok tt sample_world
           [EAcquire; ELoad "notes";
            EDisplay [] "notes" (NoEntries :: later); ERelease]
       /\ Forall (eq NoEntries) later.
Proof.
  assert (Hfs : forall p, In p (fs sample_world) ->
                          contains MARKER (fst p) = true ->
                          lacks_kind "notes" p).
  { intros p [<- | [<- | [<- | []]]] Hm;
      solve [discriminate Hm | left; reflexivity]. }
  destruct (missing_kind_folder_session_starts sample_parse
              (fun _ _ _ => [NoEntries]) None None false None false
              sample_world (or_introl eq_refl) Hfs) as (_ & Hl & Hs).
  split; [exact Hl | exact Hs].
Defined.

(* ===================================================================== *)
(** ** [init] *)

Lemma bind_unfold {A B} (c : M A) (k : A -> M B) (w : World) :
  bind c k w
  = match c w with
    | Ok a w1 t1 => prepend t1 (k a w1)
    | Raise e w1 t1 => Raise e w1 t1
    end.
Proof. reflexivity. Qed.

Lemma prepend_nil {A} (o : Outcome A) : prepend [] o = o.
Proof. now destruct o. Qed.

Lemma prepend_prepend {A} (t1 t2 : list Ev) (o : Outcome A) :
  prepend t1 (prepend t2 o) = prepend (t1 ++ t2) o.
Proof. destruct o; cbn; now rewrite app_assoc. Qed.

Lemma events_prepend {A} (t : list Ev) (o : Outcome A) :
  events (prepend t o) = t ++ events o.
Proof. now destruct o. Qed.

Lemma world_of_prepend {A} (t : list Ev) (o : Outcome A) :
  world_of (prepend t o) = world_of o.
Proof. now destruct o. Qed.

Lemma returns_prepend {A} (t : list Ev) (o : Outcome A) :
  returns (prepend t o) = returns o.
Proof. now destruct o. Qed.

Lemma fs_at_entry (name : string) (l : listing) :
  fs_at [name] l = lookup name l.
Proof. unfold fs_at. cbn. now destruct (lookup name l). Qed.

Lemma bind_ok {A B} {c : M A} (k : A -> M B) {w : World} {a : A}
    {w1 : World} {t1 : list Ev} :
  c w = Ok a w1 t1 -> bind c k w = prepend t1 (k a w1).
Proof. intros H. now rewrite bind_unfold, H. Qed.

Lemma bind_raise {A B} {c : M A} (k : A -> M B) {w : World} {e : Exn}
    {w1 : World} {t1 : list Ev} :
  c w = Raise e w1 t1 -> bind c k w = Raise e w1 t1.
Proof. intros H. now rewrite bind_unfold, H. Qed.

Lemma getcwd_run (w : World) : getcwd w = Ok (cwd w) w [].
Proof. reflexivity. Qed.

Lemma print_run (msg : string) (w : World) :
  print msg w = Ok tt w [EPrint msg].
Proof. reflexivity. Qed.

Lemma path_exists_run (p : list string) (w : World) :
  path_exists p w = Ok (is_some (fs_at p (fs w))) w [].
Proof. reflexivity. Qed.

Lemma path_isdir_run (p : list string) (w : World) :
  path_isdir p w = Ok (is_dir (fs_at p (fs w))) w [].
Proof. reflexivity. Qed.

Lemma listdir_run (w : World) : listdir w = Ok (map fst (fs w)) w [].
Proof. reflexivity. Qed.

Lemma os_remove_file (name : string) (w : World) (c : option string) :
  lookup name (fs w) = Some (File c) ->
  os_remove name w
  = Ok tt (mkWorld (cwd w) (remove_entry name (fs w)) (term w)) [].
Proof.
  intros H. unfold os_remove. rewrite (bind_ok _ (eq_refl : get_fs w = _)).
  now rewrite H.
Qed.

(** [init] by the three cases of lines 18-26. *)
Lemma init_run (w : World) :
  init w
  = match lookup ".org" (fs w) with
    | Some (Dir _) =>
        Ok tt w
          [EPrint ("Directory '" ^^ cwd w
                   ^^ "' is already initialized for org.")]
    | Some (File _) =>
        prepend
          [EPrint ("Error: '" ^^ path_join (cwd w) ".org"
                   ^^ "' exists as a file. Removing and creating as a directory.")]
          (init_scaffold (cwd w)
             (mkWorld (cwd w) (remove_entry ".org" (fs w)) (term w)))
    | None => init_scaffold (cwd w) w
    end.
Proof.
  unfold init.
  rewrite (bind_ok _ (getcwd_run w)), prepend_nil.
  rewrite (bind_ok _ (path_exists_run _ w)), prepend_nil.
  rewrite fs_at_entry.
  destruct (lookup ".org" (fs w)) as [[c|ch]|] eqn:Horg; cbn [is_some].
  - rewrite bind_unfold.
    rewrite (bind_ok _ (path_isdir_run _ w)), prepend_nil.
    rewrite fs_at_entry, Horg. cbn [is_dir].
    rewrite (bind_ok _ (print_run _ w)).
    rewrite (bind_ok _ (os_remove_file _ _ Horg)).
    cbn [ret prepend app negb]. reflexivity.
  - rewrite bind_unfold.
    rewrite (bind_ok _ (path_isdir_run _ w)), prepend_nil.
    rewrite fs_at_entry, Horg. cbn [is_dir].
    rewrite (bind_ok _ (print_run _ w)). reflexivity.
  - rewrite bind_unfold. cbn [ret negb]. apply prepend_nil.
Qed.

(** *** Entries of a directory *)

Lemma lookup_upsert (m n : string) (f : option Node -> Node) (l : listing) :
  lookup m (upsert n f l)
  = if n =? m then Some (f (lookup n l)) else lookup m l.
Proof.
  induction l as [|[a x] l IH]; cbn.
  - now destruct (n =? m).
  - destruct (String.eqb_spec a n) as [->|Han]; cbn.
    + now destruct (n =? m).
    + rewrite IH. destruct (String.eqb_spec a m) as [->|Ham];
        [|reflexivity].
      destruct (String.eqb_spec n m); [congruence | reflexivity].
Qed.

Lemma lookup_remove_other (m n : string) (l : listing) :
  m <> n -> lookup m (remove_entry n l) = lookup m l.
Proof.
  intros Hmn. induction l as [|[a x] l IH]; [reflexivity|]. cbn.
  destruct (String.eqb_spec a n) as [->|Han].
  - destruct (String.eqb_spec n m); [congruence | reflexivity].
  - cbn. now rewrite IH.
Qed.

Lemma lookup_absent (n : string) (l : listing) :
  ~ In n (map fst l) -> lookup n l = None.
Proof.
  induction l as [|[a x] l IH]; [reflexivity|]. cbn. intros H.
  destruct (String.eqb_spec a n) as [->|Han]; [tauto|].
  apply IH. tauto.
Qed.

Lemma lookup_remove_same (n : string) (l : listing) :
  NoDup (map fst l) -> lookup n (remove_entry n l) = None.
Proof.
  induction l as [|[a x] l IH]; [reflexivity|]. cbn. intros H.
  inversion H as [|? ? Hnot Hnd]; subst.
  destruct (String.eqb_spec a n) as [->|Han].
  - now apply lookup_absent.
  - cbn. destruct (String.eqb_spec a n); [congruence|]. now apply IH.
Qed.

Lemma fs_at_child (x k : string) (l ch : listing) :
  lookup x l = Some (Dir ch) -> fs_at [x; k] l = lookup k ch.
Proof.
  intros H. unfold fs_at. cbn. rewrite H. now destruct (lookup k ch).
Qed.

Lemma makedirs_run (p : list string) (w : World) :
  fs_at p (fs w) = None ->
  makedirs p w = Ok tt (mkWorld (cwd w) (fs_set p (Dir []) (fs w)) (term w)) [].
Proof.
  intros H. unfold makedirs.
  rewrite (bind_ok _ (eq_refl : get_fs w = _)). now rewrite H.
Qed.

(** *** The loop over the subfolders *)

Lemma world_eta (w : World) : mkWorld (cwd w) (fs w) (term w) = w.
Proof. now destruct w. Qed.

(** Lines 38-41 for one folder name: an entry of that name is left alone,
    a missing one becomes an empty folder; nothing else moves. *)
Lemma scaffold_folder_run (sp x k : string) (w : World) (ch : listing) :
  lookup x (fs w) = Some (Dir ch) ->
  exists l' ch' t,
    scaffold_folder sp x k w = Ok tt (mkWorld (cwd w) l' (term w)) t
    /\ Forall (fun e => is_print e = true) t
    /\ (forall m, m <> x -> lookup m l' = lookup m (fs w))
    /\ lookup x l' = Some (Dir ch')
    /\ forall j, lookup j ch'
                 = if k =? j then
                     match lookup k ch with
                     | Some v => Some v
                     | None => Some (Dir [])
                     end
                   else lookup j ch.
Proof.
  intros Hx. unfold scaffold_folder. cbv zeta.
  rewrite (bind_ok _ (path_exists_run _ w)), prepend_nil.
  rewrite (@fs_at_child x k (fs w) ch Hx).
  destruct (lookup k ch) as [v|] eqn:Hk; cbn [is_some negb].
  - exists (fs w), ch, []. rewrite world_eta.
    repeat split; [constructor | assumption |].
    intros j. destruct (String.eqb_spec k j) as [<-|]; [assumption|reflexivity].
  - assert (Hnone : fs_at [x; k] (fs w) = None)
      by now rewrite (@fs_at_child x k (fs w) ch Hx).
    rewrite (bind_ok _ (@makedirs_run _ w Hnone)), prepend_nil.
    rewrite print_run.
    eexists _, _, _. split; [reflexivity|].
    split; [repeat constructor|].
    unfold fs_set. cbn [node_set].
    split; [|split].
    + intros m Hm. rewrite lookup_upsert.
      destruct (String.eqb_spec x m); [congruence | reflexivity].
    + rewrite lookup_upsert, String.eqb_refl, Hx. reflexivity.
    + intros j. rewrite lookup_upsert.
      now destruct (k =? j).
Qed.

Lemma scaffold_folders_run (sp x : string) (ks : list string) :
  forall (w : World) (ch : listing),
    lookup x (fs w) = Some (Dir ch) ->
    exists l' ch' t,
      for_each ks (scaffold_folder sp x) w
      = Ok tt (mkWorld (cwd w) l' (term w)) t
      /\ Forall (fun e => is_print e = true) t
      /\ (forall m, m <> x -> lookup m l' = lookup m (fs w))
      /\ lookup x l' = Some (Dir ch')
      /\ forall j, lookup j ch'
                   = match lookup j ch with
                     | Some v => Some v
                     | None => if str_in j ks then Some (Dir []) else None
                     end.
Proof.
  induction ks as [|k ks IH]; intros w ch Hx.
  - exists (fs w), ch, []. cbn [for_each]. unfold ret. rewrite world_eta.
    repeat split; [constructor | assumption |].
    intros j. now destruct (lookup j ch).
  - destruct (@scaffold_folder_run sp x k w ch Hx)
      as (l1 & ch1 & t1 & Hrun & Ht1 & Hother1 & Hx1 & Hch1).
    cbn [for_each]. rewrite (bind_ok _ Hrun).
    destruct (IH (mkWorld (cwd w) l1 (term w)) ch1 Hx1)
      as (l2 & ch2 & t2 & Hrun2 & Ht2 & Hother2 & Hx2 & Hch2).
    rewrite Hrun2. cbn [cwd term fs prepend] in *.
    exists l2, ch2, (t1 ++ t2). split; [reflexivity|].
    split; [now apply Forall_app|].
    split; [intros m Hm; now rewrite Hother2, Hother1|].
    split; [assumption|].
    intros j. rewrite Hch2, Hch1. cbn [str_in existsb].
    fold (str_in j ks).
    rewrite (String.eqb_sym j k).
    destruct (String.eqb_spec k j) as [<-|Hkj]; cbn [orb].
    + now destruct (lookup k ch).
    + reflexivity.
Qed.

(** Lines 34-41 for one entry of the working directory. *)
Lemma scaffold_project_run (cd x : string) (w : World) :
  exists l' t,
    scaffold_project cd x w = Ok tt (mkWorld (cwd w) l' (term w)) t
    /\ Forall (fun e => is_print e = true) t
    /\ (forall m, m <> x -> lookup m l' = lookup m (fs w))
    /\ project_scaffolded x (lookup x (fs w)) (lookup x l').
Proof.
  unfold scaffold_project. cbv zeta.
  rewrite (bind_ok _ (path_isdir_run _ w)), prepend_nil, fs_at_entry.
  unfold project_scaffolded.
  destruct (lookup x (fs w)) as [[c|ch]|] eqn:Hx; cbn [is_dir andb].
  - exists (fs w), []. unfold ret. rewrite world_eta.
    repeat split; [constructor | assumption].
  - destruct (contains MARKER x).
    + destruct (@scaffold_folders_run (path_join cd x) x kinds w ch Hx)
        as (l' & ch' & t & Hrun & Ht & Hother & Hx' & Hch).
      exists l', t. repeat split; try assumption.
      exists ch'. split; [assumption|]. intros k. apply Hch.
    + exists (fs w), []. unfold ret. rewrite world_eta.
      repeat split; [constructor | assumption].
  - exists (fs w), []. unfold ret. rewrite world_eta.
    repeat split; [constructor | assumption].
Qed.

Lemma scaffolded_twice (ch ch1 : listing) (j : string) :
  (forall k, lookup k ch1 = scaffolded ch k) ->
  scaffolded ch1 j = scaffolded ch j.
Proof.
  intros H. unfold scaffolded at 1. rewrite H. unfold scaffolded.
  destruct (lookup j ch); [reflexivity|].
  now destruct (str_in j kinds).
Qed.

Lemma project_scaffolded_trans (x : string) (a b c : option Node) :
  project_scaffolded x a b -> project_scaffolded x b c ->
  project_scaffolded x a c.
Proof.
  unfold project_scaffolded.
  destruct a as [[ca|ch]|]; try (now intros ->).
  destruct (contains MARKER x); [|now intros ->].
  intros (ch1 & -> & H1) (ch2 & -> & H2).
  exists ch2. split; [reflexivity|].
  intros k. rewrite H2. now apply scaffolded_twice.
Qed.

Lemma project_scaffolded_none (x : string) (o : option Node) :
  project_scaffolded x None o -> o = None.
Proof. trivial. Qed.

(** The loop of lines 33-41: every name gone through is scaffolded, the
    others are scaffolded or untouched. *)
Lemma scaffold_loop (cd : string) (l0 : listing) (names : list string) :
  forall (w : World) (done : list string),
    (forall m,
        (In m done -> project_scaffolded m (lookup m l0) (lookup m (fs w)))
        /\ (project_scaffolded m (lookup m l0) (lookup m (fs w))
            \/ lookup m (fs w) = lookup m l0)) ->
    exists l' t,
      for_each names (scaffold_project cd) w
      = Ok tt (mkWorld (cwd w) l' (term w)) t
      /\ Forall (fun e => is_print e = true) t
      /\ forall m,
           (In m (done ++ names) ->
            project_scaffolded m (lookup m l0) (lookup m l'))
           /\ (project_scaffolded m (lookup m l0) (lookup m l')
               \/ lookup m l' = lookup m l0).
Proof.
  induction names as [|x names IH]; intros w done Hinv.
  - exists (fs w), []. cbn [for_each]. unfold ret. rewrite world_eta.
    rewrite app_nil_r. split; [reflexivity|]. split; [constructor|].
    intros m. apply Hinv.
  - destruct (scaffold_project_run cd x w)
      as (l1 & t1 & Hrun & Ht1 & Hother & Hx).
    cbn [for_each]. rewrite (bind_ok _ Hrun).
    destruct (IH (mkWorld (cwd w) l1 (term w)) (done ++ [x]))
      as (l2 & t2 & Hrun2 & Ht2 & Hinv2).
    { cbn [fs]. intros m. destruct (string_dec m x) as [->|Hm].
      - assert (Hps : project_scaffolded x (lookup x l0) (lookup x l1)).
        { destruct (Hinv x) as [_ [Hps | Heq]].
          - eapply project_scaffolded_trans; eassumption.
          - now rewrite <- Heq. }
        split; [intros _; exact Hps | now left].
      - rewrite (Hother m Hm). destruct (Hinv m) as [Hd Hor].
        split; [|exact Hor].
        intros Hin. apply in_app_or in Hin.
        destruct Hin as [Hin | [-> | []]]; [now apply Hd | congruence]. }
    rewrite Hrun2. cbn [cwd term prepend] in *.
    exists l2, (t1 ++ t2). split; [reflexivity|].
    split; [now apply Forall_app|].
    intros m. rewrite <- app_assoc in Hinv2. apply Hinv2.
Qed.

(** *** The [.gitignore] entry *)

Lemma lookup_fs_set_entry (m n : string) (new : Node) (l : listing) :
  lookup m (fs_set [n] new l) = if n =? m then Some new else lookup m l.
Proof. unfold fs_set. cbn [node_set]. now rewrite lookup_upsert. Qed.

(** Lines 44-61 by the state of [.gitignore]. *)
Lemma update_gitignore_run (w : World) :
  update_gitignore w
  = match lookup ".gitignore" (fs w) with
    | None =>
        Ok tt
          (mkWorld (cwd w)
             (fs_set [".gitignore"] (File (Some (".org" ^^ nl))) (fs w))
             (term w))
          [EPrint "Created .gitignore and added .org"]
    | Some (File (Some text)) =>
        if utf8_valid text then
          if org_listed text then
            Ok tt w [EPrint ".org is already listed in .gitignore"]
          else
            Ok tt
              (mkWorld (cwd w)
                 (fs_set [".gitignore"]
                    (File (Some (text ^^ "/.org" ^^ nl))) (fs w))
                 (term w))
              [EPrint "Added .org to existing .gitignore"]
        else Raise "UnicodeDecodeError" w []
    | Some (File None) => Raise "PermissionError" w []
    | Some (Dir _) => Raise "IsADirectoryError" w []
    end.
Proof.
  unfold update_gitignore.
  rewrite (bind_ok _ (path_exists_run _ w)), prepend_nil, fs_at_entry.
  destruct (lookup ".gitignore" (fs w)) as [[[text|]|ch]|] eqn:Hg;
    cbn [is_some].
  - unfold read_lines.
    rewrite bind_unfold, (bind_ok _ (eq_refl : get_fs w = _)), prepend_nil.
    rewrite fs_at_entry, Hg.
    destruct (utf8_valid text); [|reflexivity].
    cbn [ret prepend app].
    unfold org_listed. rewrite <- negb_orb.
    destruct (str_in (".org" ^^ nl) (readlines text)
              || str_in ".org" (readlines text)); cbn [negb].
    + apply print_run.
    + unfold append_text.
      rewrite bind_unfold, (bind_ok _ (eq_refl : get_fs w = _)), prepend_nil.
      rewrite fs_at_entry, Hg. reflexivity.
  - unfold read_lines.
    rewrite bind_unfold, (bind_ok _ (eq_refl : get_fs w = _)), prepend_nil.
    rewrite fs_at_entry, Hg. reflexivity.
  - unfold read_lines.
    rewrite bind_unfold, (bind_ok _ (eq_refl : get_fs w = _)), prepend_nil.
    rewrite fs_at_entry, Hg. reflexivity.
  - unfold write_text.
    rewrite bind_unfold, (bind_ok _ (eq_refl : get_fs w = _)), prepend_nil.
    rewrite fs_at_entry, Hg. reflexivity.
Qed.

(** *** [init] in a directory without [.org] *)

Lemma makedirs_exists (p : list string) (w : World) :
  fs_at p (fs w) <> None -> makedirs p w = Raise "FileExistsError" w [].
Proof.
  intros H. unfold makedirs.
  rewrite (bind_ok _ (eq_refl : get_fs w = _)).
  now destruct (fs_at p (fs w)).
Qed.

(** Lines 28-41: [.org] is created empty, then the loop scaffolds the
    marked directories and leaves every other entry as it was; lines 44-61
    then run on the result. *)
Lemma init_scaffold_run (cd : string) (w : World) :
  lookup ".org" (fs w) = None ->
  exists l2 t2,
    init_scaffold cd w
    = prepend (EPrint ("Created .org directory in " ^^ cd) :: t2)
        (update_gitignore (mkWorld (cwd w) l2 (term w)))
    /\ Forall (fun e => is_print e = true) t2
    /\ lookup ".org" l2 = Some (Dir [])
    /\ forall m, m <> ".org" ->
                 project_scaffolded m (lookup m (fs w)) (lookup m l2).
Proof.
  intros Horg. unfold init_scaffold.
  assert (Hnone : fs_at [".org"] (fs w) = None) by now rewrite fs_at_entry.
  rewrite (bind_ok _ (@makedirs_run _ w Hnone)), prepend_nil.
  set (l1 := fs_set [".org"] (Dir []) (fs w)).
  set (w1 := mkWorld (cwd w) l1 (term w)).
  rewrite (bind_ok _ (print_run _ w1)).
  rewrite (bind_ok _ (listdir_run w1)), prepend_nil.
  destruct (@scaffold_loop cd l1 (map fst l1) w1 [])
    as (l2 & t2 & Hrun & Ht2 & Hinv).
  { intros m. split; [intros [] | now right]. }
  rewrite (bind_ok _ Hrun), prepend_prepend.
  exists l2, t2. split; [reflexivity|]. split; [assumption|].
  assert (Hall : forall m, project_scaffolded m (lookup m l1) (lookup m l2)).
  { intros m. destruct (in_dec string_dec m (map fst l1)) as [Hin|Hout].
    - now apply Hinv.
    - destruct (Hinv m) as [_ [Hps | Heq]]; [assumption|].
      rewrite Heq, (lookup_absent _ _ Hout). reflexivity. }
  split.
  - specialize (Hall ".org"). unfold l1 in Hall.
    rewrite lookup_fs_set_entry in Hall. exact Hall.
  - intros m Hm. specialize (Hall m). unfold l1 in Hall.
    rewrite lookup_fs_set_entry in Hall.
    destruct (String.eqb_spec ".org" m); [congruence | assumption].
Qed.

(** [init] up to the [.gitignore] step, when there is no [.org] directory
    yet: a file of that name is removed first. *)
Lemma init_fresh_run (w : World) :
  init_fresh w ->
  exists l2 t,
    init w = prepend t (update_gitignore (mkWorld (cwd w) l2 (term w)))
    /\ Forall (fun e => is_print e = true) t
    /\ lookup ".org" l2 = Some (Dir [])
    /\ forall m, m <> ".org" ->
                 project_scaffolded m (lookup m (fs w)) (lookup m l2).
Proof.
  intros [Hnd Hdir]. rewrite init_run.
  destruct (lookup ".org" (fs w)) as [[c|ch]|] eqn:Horg;
    [|discriminate|].
  - set (w' := mkWorld (cwd w) (remove_entry ".org" (fs w)) (term w)).
    destruct (@init_scaffold_run (cwd w) w')
      as (l2 & t2 & Hrun & Ht2 & Horg2 & Hother);
      [now apply lookup_remove_same|].
    rewrite Hrun, prepend_prepend. cbn [cwd term fs w'] in *.
    eexists l2, _. split; [reflexivity|].
    split; [repeat constructor; assumption|].
    split; [assumption|].
    intros m Hm. rewrite <- (lookup_remove_other (fs w) Hm).
    now apply Hother.
  - destruct (@init_scaffold_run (cwd w) w Horg)
      as (l2 & t2 & Hrun & Ht2 & Horg2 & Hother).
    rewrite Hrun. eexists l2, _. split; [reflexivity|].
    split; [repeat constructor; assumption|]. now split.
Qed.

Lemma update_gitignore_prints (w : World) :
  Forall (fun e => is_print e = true) (events (update_gitignore w)).
Proof.
  rewrite update_gitignore_run.
  destruct (lookup ".gitignore" (fs w)) as [[[text|]|ch]|];
    [destruct (utf8_valid text), (org_listed text)| | |];
    repeat constructor.
Qed.

Lemma init_scaffold_prints (cd : string) (w : World) :
  Forall (fun e => is_print e = true) (events (init_scaffold cd w)).
Proof.
  destruct (lookup ".org" (fs w)) as [n|] eqn:Horg.
  - assert (Hex : fs_at [".org"] (fs w) <> None)
      by (rewrite fs_at_entry, Horg; discriminate).
    unfold init_scaffold. rewrite (bind_raise _ (@makedirs_exists _ w Hex)).
    constructor.
  - destruct (@init_scaffold_run cd w Horg) as (l2 & t2 & -> & Ht2 & _).
    rewrite events_prepend. apply Forall_app. split.
    + constructor; [reflexivity | assumption].
    + apply update_gitignore_prints.
Qed.

Lemma update_gitignore_frame (w : World) :
  cwd (world_of (update_gitignore w)) = cwd w
  /\ term (world_of (update_gitignore w)) = term w.
Proof.
  rewrite update_gitignore_run.
  destruct (lookup ".gitignore" (fs w)) as [[[text|]|ch]|];
    [destruct (utf8_valid text), (org_listed text)| | |]; now split.
Qed.

Lemma init_scaffold_frame (cd : string) (w : World) :
  cwd (world_of (init_scaffold cd w)) = cwd w
  /\ term (world_of (init_scaffold cd w)) = term w.
Proof.
  destruct (lookup ".org" (fs w)) as [n|] eqn:Horg.
  - assert (Hex : fs_at [".org"] (fs w) <> None)
      by (rewrite fs_at_entry, Horg; discriminate).
    unfold init_scaffold. rewrite (bind_raise _ (@makedirs_exists _ w Hex)).
    now split.
  - destruct (@init_scaffold_run cd w Horg) as (l2 & t2 & -> & _).
    rewrite world_of_prepend.
    exact (update_gitignore_frame (mkWorld (cwd w) l2 (term w))).
Qed.

Lemma init_prints (w : World) :
  Forall (fun e => is_print e = true) (events (init w)).
Proof.
  rewrite init_run.
  destruct (lookup ".org" (fs w)) as [[c|ch]|].
  - rewrite events_prepend. apply Forall_app. split.
    + repeat constructor.
    + apply init_scaffold_prints.
  - repeat constructor.
  - apply init_scaffold_prints.
Qed.

Lemma init_frame (w : World) :
  cwd (world_of (init w)) = cwd w /\ term (world_of (init w)) = term w.
Proof.
  rewrite init_run.
  destruct (lookup ".org" (fs w)) as [[c|ch]|].
  - rewrite world_of_prepend.
    apply (init_scaffold_frame (cwd w)
             (mkWorld (cwd w) (remove_entry ".org" (fs w)) (term w))).
  - now split.
  - apply init_scaffold_frame.
Qed.

Lemma prints_are_not_browsing (t : list Ev) :
  Forall (fun e => is_print e = true) t ->
  browsing_calls t = [] /\ ~ In EAcquire t /\ ~ In ERelease t.
Proof.
  induction 1 as [|e t He _ (IH1 & IH2 & IH3)]; [now cbn|].
  destruct e; try discriminate.
  split; [exact IH1|]. split; intros [H|H]; try discriminate; tauto.
Qed.

(** X8: whatever the directory holds and however it ends, [init] only
    prints: it never runs the validator, never acquires the terminal and
    never calls the [views] module; it stays in the same directory. *)
Theorem init_only_prints (w : World) :
  Forall (fun e => is_print e = true) (events (init w))
  /\ browsing_calls (events (init w)) = []
  /\ cwd (world_of (init w)) = cwd w
  /\ term (world_of (init w)) = term w.
Proof.
  split; [apply init_prints|].
  split; [apply prints_are_not_browsing, init_prints | apply init_frame].
Qed.

Lemma project_scaffolded_unmarked (m : string) (a b : option Node) :
  contains MARKER m = false \/ is_dir a = false ->
  project_scaffolded m a b -> b = a.
Proof.
  unfold project_scaffolded. intros [Hm | Hd].
  - destruct a as [[c|ch]|]; trivial. now rewrite Hm.
  - destruct a as [[c|ch]|]; trivial. discriminate.
Qed.

(** The directory [init] leaves when there was no [.org] directory. *)
Lemma init_fresh_outcome (w : World) :
  init_fresh w ->
  let w' := world_of (init w) in
  lookup ".org" (fs w') = Some (Dir [])
  /\ (forall m, m <> ".org" -> m <> ".gitignore" ->
                project_scaffolded m (lookup m (fs w)) (lookup m (fs w')))
  /\ lookup ".gitignore" (fs w')
     = match lookup ".gitignore" (fs w) with
       | None => Some (File (Some (".org" ^^ nl)))
       | Some (File (Some text)) =>
           Some (File (Some (if utf8_valid text && negb (org_listed text)
                             then text ^^ "/.org" ^^ nl
                             else text)))
       | other => other
       end
  /\ returns (init w)
     = match lookup ".gitignore" (fs w) with
       | None => true
       | Some (File (Some text)) => utf8_valid text
       | _ => false
       end.
Proof.
  intros Hf. cbv zeta.
  destruct (init_fresh_run Hf) as (l2 & t & -> & _ & Horg & Hother).
  rewrite world_of_prepend, returns_prepend.
  assert (Hg : lookup ".gitignore" l2 = lookup ".gitignore" (fs w)).
  { apply (@project_scaffolded_unmarked ".gitignore");
      [now left | apply Hother; discriminate]. }
  rewrite update_gitignore_run. cbn [fs]. rewrite Hg.
  assert (Hset : forall new m, m <> ".org" -> m <> ".gitignore" ->
            project_scaffolded m (lookup m (fs w))
              (lookup m (fs_set [".gitignore"] new l2))).
  { intros new m H1 H2. rewrite lookup_fs_set_entry.
    destruct (String.eqb_spec ".gitignore" m); [congruence|].
    now apply Hother. }
  assert (Horg' : forall new,
            lookup ".org" (fs_set [".gitignore"] new l2) = Some (Dir [])).
  { intros new. now rewrite lookup_fs_set_entry. }
  assert (Hnew : forall new,
            lookup ".gitignore" (fs_set [".gitignore"] new l2) = Some new).
  { intros new. now rewrite lookup_fs_set_entry, String.eqb_refl. }
  destruct (lookup ".gitignore" (fs w)) as [[[text|]|ch]|] eqn:Hgw;
    [destruct (utf8_valid text), (org_listed text)| | |];
    cbn [world_of fs returns andb negb].
  - split; [assumption|]. split; [now intros m H1 H2; apply Hother|].
    now split.
  - split; [apply Horg'|]. split; [apply Hset|]. split; [apply Hnew|].
    reflexivity.
  - split; [assumption|]. split; [now intros m H1 H2; apply Hother|].
    now split.
  - split; [assumption|]. split; [now intros m H1 H2; apply Hother|].
    now split.
  - split; [assumption|]. split; [now intros m H1 H2; apply Hother|].
    now split.
  - split; [assumption|]. split; [now intros m H1 H2; apply Hother|].
    now split.
  - split; [apply Horg'|]. split; [apply Hset|]. split; [apply Hnew|].
    reflexivity.
Qed.

(** X1: in a directory that has a [.org] directory, [init] prints that it
    is initialised and returns at once: no file or folder is touched, so a
    marked project added since is not given its folders and [.gitignore]
    is not looked at. *)
Theorem init_initialised_is_noop (w : World) :
  is_dir (lookup ".org" (fs w)) = true ->
  init w
  = Ok tt w
      [EPrint ("Directory '" ^^ cwd w ^^ "' is already initialized for org.")].
Proof.
  intros H. rewrite init_run.
  destruct (lookup ".org" (fs w)) as [[c|ch]|]; try discriminate.
  reflexivity.
Qed.



(** X4: [init] touches nothing else in the working directory: apart from
    [.org] and [.gitignore], every entry that is not a marked directory (a
    file, an unmarked directory, a name that is absent) is after [init]
    exactly what it was before. *)
Theorem init_leaves_other_entries (w : World) (n : string) :
  init_fresh w ->
  n <> ".org" -> n <> ".gitignore" ->
  contains MARKER n = false \/ is_dir (lookup n (fs w)) = false ->
  lookup n (fs (world_of (init w))) = lookup n (fs w).
Proof.
  intros Hf H1 H2 Hn.
  destruct (init_fresh_outcome Hf) as (_ & Hother & _).
  exact (@project_scaffolded_unmarked n _ _ Hn (Hother n H1 H2)).
Qed.


(** X6: when [.gitignore] is a directory or cannot be read, [init] ends
    with the exception of [open], after the scaffold is in place: [.org]
    exists as a directory and only messages were printed. *)
Theorem init_unusable_gitignore (w : World) :
  init_fresh w ->
  (exists ch, lookup ".gitignore" (fs w) = Some (Dir ch))
  \/ lookup ".gitignore" (fs w) = Some (File None) ->
  returns (init w) = false
  /\ lookup ".org" (fs (world_of (init w))) = Some (Dir [])
  /\ lookup ".gitignore" (fs (world_of (init w)))
     = lookup ".gitignore" (fs w).
Proof.
  intros Hf Hg.
  destruct (init_fresh_outcome Hf) as (Horg & _ & Hgi & Hret).
  rewrite Hret, Hgi.
  destruct Hg as [[ch ->] | ->]; now repeat split.
Qed.

(** X7: [init] run again on the directory it has left does nothing but
    print that the directory is initialised. *)
Theorem init_twice (w : World) :
  NoDup (map fst (fs w)) ->
  init (world_of (init w))
  = Ok tt (world_of (init w))
      [EPrint ("Directory '" ^^ cwd w ^^ "' is already initialized for org.")].
Proof.
  intros Hnd.
  assert (Hdir : is_dir (lookup ".org" (fs (world_of (init w)))) = true).
  { destruct (is_dir (lookup ".org" (fs w))) eqn:Hd.
    - rewrite init_run.
      destruct (lookup ".org" (fs w)) as [[c|ch]|] eqn:Ho;
        try discriminate.
      cbn [world_of]. now rewrite Ho.
    - destruct (@init_fresh_outcome w (conj Hnd Hd)) as (-> & _).
      reflexivity. }
  rewrite init_run. destruct (init_frame w) as [-> _].
  destruct (lookup ".org" (fs (world_of (init w)))) as [[c|ch]|];
    try discriminate.
  reflexivity.
Qed.

(** X9: after [init], the invocation without a subcommand finds [.org] and
    opens the start screen, acquiring and releasing the terminal, without
    running the validator. *)
Theorem init_then_bare_invocation (views : ViewsModule)
    (run_validation : Validator) (w : World) :
  NoDup (map fst (fs w)) ->
  let w' := world_of (init w) in
  main views run_validation bare_args w'
  = Ok tt w'
      [EAcquire; EViewsMain (views_main views (term w) (cwd w) (fs w'));
       ERelease].
Proof.
  intros Hnd w'.
  assert (Hex : is_some (fs_at [".org"] (fs w')) = true).
  { rewrite fs_at_entry. unfold w'.
    destruct (is_dir (lookup ".org" (fs w))) eqn:Hd.
    - rewrite init_run.
      destruct (lookup ".org" (fs w)) as [[c|ch]|] eqn:Ho;
        try discriminate.
      cbn [world_of]. now rewrite Ho.
    - destruct (@init_fresh_outcome w (conj Hnd Hd)) as (-> & _).
      reflexivity. }
  destruct (init_frame w) as [Hc Ht]. fold w' in Hc, Ht.
  unfold main, bare_args. cbn [command py_eq].
  rewrite (bind_ok _ (getcwd_run w')), prepend_nil.
  rewrite (bind_ok _ (path_exists_run _ w')), prepend_nil, Hex.
  cbn [negb]. unfold curses_wrapper, finally, bind, emit. cbn.
  now rewrite Hc, Ht.
Qed.

(* ===================================================================== *)
(** ** [main] over all command lines *)

Section MainFacts.

Variable views : ViewsModule.
Variable run_validation : Validator.

Lemma py_eq_true (v : pystr) (lit : string) :
  py_eq v lit = true <-> v = Some lit.
Proof.
  destruct v as [s|]; cbn; [|split; discriminate].
  rewrite String.eqb_eq. split; congruence.
Qed.

Lemma py_eq_false (v : pystr) (lit : string) :
  py_eq v lit = false <-> v <> Some lit.
Proof.
  rewrite <- py_eq_true. destruct (py_eq v lit); split; congruence.
Qed.

(** Lines 149-159: the invocation without a subcommand. *)
Lemma main_bare_run (args : Args) (w : World) :
  command args <> Some "init" ->
  command args <> Some "view" ->
  command args <> Some "val" ->
  main views run_validation args w
  = if is_some (lookup ".org" (fs w)) then
      Ok tt w
        [EAcquire; EViewsMain (views_main views (term w) (cwd w) (fs w));
         ERelease]
    else
      Ok tt w
        [EPrint ("Error: '.org' file not found in " ^^ cwd w
                 ^^ ". This directory is not initialized for org.")].
Proof.
  intros Hi Hv Hl. apply py_eq_false in Hi, Hv, Hl.
  unfold main. rewrite Hi, Hv, Hl.
  rewrite (bind_ok _ (getcwd_run w)), prepend_nil.
  rewrite (bind_ok _ (path_exists_run _ w)), prepend_nil, fs_at_entry.
  now destruct (lookup ".org" (fs w)).
Qed.

Lemma main_init_run (args : Args) (w : World) :
  command args = Some "init" -> main views run_validation args w = init w.
Proof. intros H. unfold main. now rewrite H. Qed.

Lemma main_val_run (args : Args) (w : World) :
  command args = Some "val" ->
  main views run_validation args w = call_validation run_validation w.
Proof. intros H. unfold main. now rewrite H. Qed.

Lemma main_view_args (args : Args) :
  command args = Some "view" ->
  args = view_args (file_type args) (search_command args)
           (search_prop args) (search_term args).
Proof. destruct args; cbn. now intros ->. Qed.

Lemma main_view_run_args (args : Args) (w : World) :
  command args = Some "view" ->
  main views run_validation args w
  = match val_raised (run_validation (cwd w) (fs w)) with
    | Some e =>
        Raise e (validated run_validation w)
          (validation_log run_validation w)
    | None =>
        Ok tt (validated run_validation w)
          (validation_log run_validation w
           ++ events (view_command views args
                        (validated run_validation w)))
    end.
Proof.
  intros H. pose proof (main_view_args _ H) as E.
  rewrite E, main_view_run. now rewrite <- E.
Qed.

Lemma call_validation_events (w : World) :
  events (call_validation run_validation w)
  = validation_log run_validation w.
Proof.
  unfold call_validation, validation_log.
  now destruct (val_raised (run_validation (cwd w) (fs w))).
Qed.

Lemma validation_log_prints_or_validates (w : World) :
  ~ In EAcquire (validation_log run_validation w)
  /\ ~ In ERelease (validation_log run_validation w).
Proof.
  unfold validation_log.
  split; intros [H|H]; try discriminate;
    apply in_map_iff in H; destruct H as (m & H & _); discriminate.
Qed.

(** The calls between acquiring and releasing the terminal in
    [display_graphical_view]. *)
Lemma display_graphical_view_shape (ft : string) (sp st : pystr)
    (ex : bool) (so : pystr) (rv : bool) (w : World) :
  exists mid,
    display_graphical_view views ft sp st ex so rv w
    = Ok tt w (EAcquire :: mid ++ [ERelease])
    /\ ~ In EAcquire mid /\ ~ In ERelease mid.
Proof.
  rewrite display_graphical_view_run.
  eexists (events (load_entries views ft w) ++ search_log sp st ex
           ++ sort_log so rv ++ [_]).
  split; [now rewrite <- !app_assoc|].
  pose proof (load_entries_log views ft w) as Hl.
  rewrite Forall_forall in Hl.
  split; intros H; repeat (apply in_app_or in H; destruct H as [H|H]).
  all: try (apply Hl in H; destruct H as [k H]; discriminate).
  all: try (unfold search_log in H;
            destruct (truthy sp && truthy st); [destruct ex|];
            cbn in H; intuition discriminate).
  all: try (unfold sort_log in H; destruct (truthy so);
            cbn in H; intuition discriminate).
  all: cbn in H; intuition discriminate.
Qed.

Lemma view_command_shape (args : Args) (w : World) :
  exists mid,
    view_command views args w = Ok tt w (EAcquire :: mid ++ [ERelease])
    /\ ~ In EAcquire mid /\ ~ In ERelease mid.
Proof.
  destruct (view_command_cases views args)
    as [[_ ->]|[[_ ->]|[[_ ->]|[[_ ->]| ->]]]];
    apply display_graphical_view_shape.
Qed.

(** X10: [main] acquires the terminal in exactly two situations: a [view]
    command whose validation returns, and an invocation that is none of
    [init], [view], [val] in a directory that has an entry [.org] (a
    directory or a plain file).  [init] and [val] never acquire it. *)
Theorem terminal_acquired_iff (args : Args) (w : World) :
  In EAcquire (events (main views run_validation args w))
  <-> (command args = Some "view"
       /\ val_raised (run_validation (cwd w) (fs w)) = None)
      \/ (command args <> Some "init" /\ command args <> Some "view"
          /\ command args <> Some "val"
          /\ lookup ".org" (fs w) <> None).
Proof.
  destruct (py_eq (command args) "init") eqn:Hi.
  { apply py_eq_true in Hi. rewrite (main_init_run _ _ Hi).
    destruct (prints_are_not_browsing (init_prints w)) as (_ & Hna & _).
    split; [tauto|]. rewrite Hi.
    intros [[H _] | [H _]]; [discriminate | congruence]. }
  destruct (py_eq (command args) "view") eqn:Hv.
  { apply py_eq_true in Hv. rewrite (main_view_run_args _ _ Hv).
    destruct (validation_log_prints_or_validates w) as [Hna _].
    destruct (val_raised (run_validation (cwd w) (fs w))) as [e|];
      cbn [events].
    - split; [tauto|].
      intros [[_ H] | (_ & H & _)]; [discriminate | congruence].
    - split; [intros _; now left|]. intros _.
      apply in_or_app. right.
      destruct (view_command_shape args (validated run_validation w))
        as (mid & -> & _).
      now left. }
  destruct (py_eq (command args) "val") eqn:Hl.
  { apply py_eq_true in Hl. rewrite (main_val_run _ _ Hl).
    rewrite call_validation_events.
    destruct (validation_log_prints_or_validates w) as [Hna _].
    split; [tauto|]. rewrite Hl.
    intros [[H _] | (_ & _ & H & _)]; [discriminate | congruence]. }
  apply py_eq_false in Hi, Hv, Hl.
  rewrite (main_bare_run _ _ Hi Hv Hl).
  destruct (lookup ".org" (fs w)) as [n|]; cbn [is_some events].
  - split; [intros _|intros _; now left].
    right. repeat split; try assumption. discriminate.
  - split.
    + intros [H | []]. discriminate.
    + intros [[H _] | (_ & _ & _ & H)]; congruence.
Qed.

(** X11: [main] never leaves the terminal acquired: a run makes no terminal
    call at all, or it acquires the terminal once and releases it once, as
    its last call.  The wrapper it acquires the terminal through releases
    it whether the wrapped function returns or raises, and ends as that
    function ended. *)
Theorem terminal_released_last (args : Args) (w : World) :
  (forall (A : Type) (f : Terminal -> M A) (w0 : World),
      events (curses_wrapper f w0)
      = EAcquire :: events (f (term w0) w0) ++ [ERelease]
      /\ returns (curses_wrapper f w0) = returns (f (term w0) w0))
  /\ let t := events (main views run_validation args w) in
     (~ In EAcquire t /\ ~ In ERelease t)
     \/ (exists pre mid,
           t = pre ++ EAcquire :: mid ++ [ERelease]
           /\ ~ In EAcquire pre /\ ~ In ERelease pre
           /\ ~ In EAcquire mid /\ ~ In ERelease mid).
Proof.
  split.
  { intros A f w0. unfold curses_wrapper, finally, bind, emit.
    now destruct (f (term w0) w0). }
  cbv zeta.
  destruct (py_eq (command args) "init") eqn:Hi.
  { apply py_eq_true in Hi. rewrite (main_init_run _ _ Hi).
    left. apply (prints_are_not_browsing (init_prints w)). }
  destruct (py_eq (command args) "view") eqn:Hv.
  { apply py_eq_true in Hv. rewrite (main_view_run_args _ _ Hv).
    pose proof (validation_log_prints_or_validates w) as Hlog.
    destruct (val_raised (run_validation (cwd w) (fs w))) as [e|];
      cbn [events returns]; [now left|].
    right.
    destruct (view_command_shape args (validated run_validation w))
      as (mid & -> & Hm).
    exists (validation_log run_validation w), mid. cbn [events].
    split; [reflexivity | tauto]. }
  destruct (py_eq (command args) "val") eqn:Hl.
  { apply py_eq_true in Hl. rewrite (main_val_run _ _ Hl).
    rewrite call_validation_events.
    left. apply validation_log_prints_or_validates. }
  apply py_eq_false in Hi, Hv, Hl.
  rewrite (main_bare_run _ _ Hi Hv Hl).
  destruct (lookup ".org" (fs w)) as [n|]; cbn [is_some events returns].
  - right.
    exists [], [EViewsMain (views_main views (term w) (cwd w) (fs w))].
    split; [reflexivity|].
    repeat split; cbn; intuition discriminate.
  - left. split; cbn; intuition discriminate.
Qed.


(** X12: the dispatch of [view] ignores what a command does not use: [o]
    and [r] run the same whatever the search term is, and [a] runs as the
    plain view whatever property and term follow it. *)
Theorem view_ignores_unused_arguments (ft : string) (sp st : pystr)
    (w : World) :
  main views run_validation (view_args ft (Some "o") sp st) w
  = main views run_validation (view_args ft (Some "o") sp None) w
  /\ main views run_validation (view_args ft (Some "r") sp st) w
     = main views run_validation (view_args ft (Some "r") sp None) w
  /\ main views run_validation (view_args ft (Some "a") sp st) w
     = main views run_validation (view_args ft None None None) w.
Proof.
  rewrite !main_view_run.
  assert (Ho : forall x,
            view_command views (view_args ft (Some "o") sp x)
            = view_command views (view_args ft (Some "o") sp None)).
  { intros x. unfold view_command, view_args.
    cbn [search_command search_prop search_term file_type]. branch.
    cbv [andb]. reflexivity. }
  assert (Hr : forall x,
            view_command views (view_args ft (Some "r") sp x)
            = view_command views (view_args ft (Some "r") sp None)).
  { intros x. unfold view_command, view_args.
    cbn [search_command search_prop search_term file_type]. branch.
    cbv [andb]. reflexivity. }
  assert (Ha : view_command views (view_args ft (Some "a") sp st)
               = view_command views (view_args ft None None None)).
  { unfold view_command, view_args.
    cbn [search_command search_prop search_term file_type]. branch.
    cbv [andb]. reflexivity. }
  rewrite (Ho st), (Hr st), Ha. repeat split.
Qed.

(** X13: called with a search and a sort, [display_graphical_view] searches
    the loaded collection first and sorts the result of the search: the
    session is opened on the sorted search result, after one search call
    and one sort call in that order. *)
Theorem search_then_sort (ft : string) (sp st : pystr) (ex : bool)
    (so : pystr) (rv : bool) (w : World) :
  truthy sp = true -> truthy st = true -> truthy so = true ->
  let found :=
    if ex then exact_search views (full_load views ft w) sp st
    else fuzzy_search views (full_load views ft w) sp st in
  displayed (events (display_graphical_view views ft sp st ex so rv w))
  = [sort_items views found so rv]
  /\ query_calls (events (display_graphical_view views ft sp st ex so rv w))
     = [if ex then EExact sp st else EFuzzy sp st; ESort so rv].
Proof.
  intros Hp Ht Ho. cbv zeta.
  rewrite displayed_display_graphical_view,
    query_calls_display_graphical_view.
  unfold final_view, searched, sorted_by, search_log, sort_log.
  rewrite Hp, Ht, Ho. cbn [andb]. now destruct ex.
Qed.

(** X14: a file type that is none of [notes], [todos], [events], [all]
    makes [display_graphical_view] call the loader not at all and open the
    session on the empty collection. *)
Theorem unknown_file_type_shows_nothing (ft : string) (w : World) :
  ft <> "notes" -> ft <> "todos" -> ft <> "events" -> ft <> "all" ->
  display_graphical_view views ft None None false None false w
  = Ok tt w
      [EAcquire;
       EDisplay [] ft (display_files_with_view views (term w) [] ft);
       ERelease].
Proof.
  intros H1 H2 H3 H4.
  apply String.eqb_neq in H1, H2, H3, H4.
  rewrite display_graphical_view_run.
  unfold final_view, full_load, load_entries.
  rewrite H1, H2, H3, H4. reflexivity.
Qed.

End MainFacts.

(* ===================================================================== *)
(** ** Worked instances of [init] and [main] *)

Example cluttered_init_run :
  init cluttered_world
  = Ok tt
      (mkWorld "/home/u"
         [("work_org",
           Dir [("notes", File (Some "not a folder"));
                ("todos", Dir [("a.md", File (Some "open"))]);
                ("events", Dir [])]);
          ("scratch", Dir []);
          (".gitignore", File (Some ("build/.org" ^^ nl)));
          (".org", Dir [])]
         (mkTerminal 24 [Quit]))
      [EPrint "Error: '/home/u/.org' exists as a file. Removing and creating as a directory.";
       EPrint "Created .org directory in /home/u";
       EPrint "Created: /home/u/work_org/events";
       EPrint "Added .org to existing .gitignore"].
Proof. reflexivity. Qed.

Example blocked_init_run :
  init blocked_world
  = Raise "IsADirectoryError"
      (mkWorld "/home/u"
         [("work_org",
           Dir [("notes", Dir []); ("todos", Dir []); ("events", Dir [])]);
          (".gitignore", Dir []);
          (".org", Dir [])]
         (mkTerminal 24 [Quit]))
      [EPrint "Created .org directory in /home/u";
       EPrint "Created: /home/u/work_org/notes";
       EPrint "Created: /home/u/work_org/todos";
       EPrint "Created: /home/u/work_org/events"].
Proof. reflexivity. Qed.

(** Distinct names of a listing given in full. *)
Ltac distinct_names :=
  cbn; repeat (constructor; [cbn; intuition discriminate|]); constructor.

Lemma init_initialised_is_noop_witness :
  init sample_world
  = Ok tt sample_world
      [EPrint "Directory '/home/u' is already initialized for org."].
Proof. exact (@init_initialised_is_noop sample_world eq_refl). Defined.



Lemma init_leaves_other_entries_witness :
  lookup "scratch" (fs (world_of (init cluttered_world))) = Some (Dir []).
Proof.
  apply (@init_leaves_other_entries cluttered_world "scratch").
  - split; [distinct_names | reflexivity].
  - discriminate.
  - discriminate.
  - left. reflexivity.
Defined.


Lemma init_unusable_gitignore_witness :
  returns (init blocked_world) = false
  /\ lookup ".org" (fs (world_of (init blocked_world))) = Some (Dir [])
  /\ lookup ".gitignore" (fs (world_of (init blocked_world)))
     = Some (Dir []).
Proof.
  apply (@init_unusable_gitignore blocked_world).
  - split; [distinct_names | reflexivity].
  - left. eexists. reflexivity.
Defined.

Lemma init_twice_witness :
  init (world_of (init cluttered_world))
  = Ok tt (world_of (init cluttered_world))
      [EPrint "Directory '/home/u' is already initialized for org."].
Proof. apply (@init_twice cluttered_world). distinct_names. Defined.

Lemma init_then_bare_invocation_witness :
  main sample_views scaffold_validation bare_args
    (world_of (init bare_world))
  = Ok tt (world_of (init bare_world))
      [EAcquire; EViewsMain [NoEntries]; ERelease].
Proof.
  apply (@init_then_bare_invocation sample_views scaffold_validation
           bare_world).
  distinct_names.
Defined.

Lemma search_then_sort_witness :
  displayed
    (events (display_graphical_view sample_views "todos"
               (Some "status") (Some "o") false (Some "status") true
               sample_world))
  = [[todo "/home/u/work_org/todos/b.md" "open";
      todo "/home/u/work_org/todos/a.md" "open";
      todo "/home/u/work_org/todos/c.md" "done"]].
Proof.
  exact (proj1 (@search_then_sort sample_views "todos" (Some "status")
                  (Some "o") false (Some "status") true sample_world
                  eq_refl eq_refl eq_refl)).
Defined.

Lemma unknown_file_type_shows_nothing_witness :
  display_graphical_view sample_views "journal" None None false None false
    sample_world
  = Ok tt sample_world
      [EAcquire; EDisplay [] "journal" [NoEntries; NoEntries; NoEntries];
       ERelease].
Proof.
  apply (@unknown_file_type_shows_nothing sample_views "journal"
           sample_world); discriminate.
Defined.

(* ===================================================================== *)
(** ** The line [init] appends to [.gitignore] *)

(** Reading a text that ends a line, followed by more text, gives the lines
    of the first and then the lines of the second. *)
Lemma readlines_from_app (s t : string) :
  forall cur,
    readlines_from cur ((s ^^ nl) ^^ t)
    = readlines_from cur (s ^^ nl) ++ readlines_from "" t.
Proof.
  induction s as [|c s IH]; intros cur.
  - cbn. reflexivity.
  - cbn [String.append readlines_from].
    destruct (c =? newline)%char; cbn [app]; now rewrite IH.
Qed.

Lemma str_in_app (x : string) (l1 l2 : list string) :
  str_in x (l1 ++ l2) = str_in x l1 || str_in x l2.
Proof. apply existsb_app. Qed.

Lemma universal_newlines_other (c : ascii) (s : string) :
  (c =? carriage_return)%char = false ->
  universal_newlines (String c s) = String c (universal_newlines s).
Proof. intros H. cbn [universal_newlines]. now rewrite H. Qed.

Lemma universal_newlines_cr (s : string) :
  universal_newlines (String carriage_return s)
  = match s with
    | EmptyString => nl
    | String d s' =>
        if (d =? newline)%char then String newline (universal_newlines s')
        else String newline (universal_newlines s)
    end.
Proof. reflexivity. Qed.

(** Translating the line ends of a text that ends with LF, followed by
    more text, translates the two apart, and the first still ends with
    LF. *)
Lemma universal_newlines_app (s : string) :
  (forall t,
      universal_newlines ((s ^^ nl) ^^ t)
      = universal_newlines (s ^^ nl) ^^ universal_newlines t)
  /\ exists s', universal_newlines (s ^^ nl) = s' ^^ nl.
Proof.
  enough (H : ((forall t,
                   universal_newlines ((s ^^ nl) ^^ t)
                   = universal_newlines (s ^^ nl) ^^ universal_newlines t)
               /\ exists s', universal_newlines (s ^^ nl) = s' ^^ nl)
              /\ forall c,
                  (forall t,
                      universal_newlines ((String c s ^^ nl) ^^ t)
                      = universal_newlines (String c s ^^ nl)
                        ^^ universal_newlines t)
                  /\ exists s',
                      universal_newlines (String c s ^^ nl) = s' ^^ nl)
    by apply H.
  induction s as [|a s [[IHapp [s0 IH0]] IHc]].
  - split.
    + split; [reflexivity | now exists ""].
    + intros c. destruct (Ascii.eqb_spec c carriage_return) as [->|Hc].
      * split; [reflexivity | now exists ""].
      * apply Ascii.eqb_neq in Hc. split.
        -- intros t. cbn [String.append].
           now rewrite !(@universal_newlines_other c _ Hc).
        -- exists (String c ""). cbn [String.append].
           now rewrite (@universal_newlines_other c _ Hc).
  - split; [apply IHc|].
    destruct (IHc a) as [IHa [sa IHa0]].
    intros c. destruct (Ascii.eqb_spec c carriage_return) as [->|Hc].
    + cbn [String.append] in *. split.
      * intros t. rewrite !universal_newlines_cr.
        destruct (a =? newline)%char; cbn [String.append].
        -- now rewrite IHapp.
        -- now rewrite IHa.
      * rewrite universal_newlines_cr.
        destruct (a =? newline)%char.
        -- exists (String newline s0). cbn [String.append].
           now rewrite IH0.
        -- exists (String newline sa). cbn [String.append].
           now rewrite IHa0.
    + apply Ascii.eqb_neq in Hc. cbn [String.append] in *. split.
      * intros t. rewrite !(@universal_newlines_other c _ Hc).
        cbn [String.append]. now rewrite IHa.
      * exists (String c sa). rewrite (@universal_newlines_other c _ Hc).
        cbn [String.append]. now rewrite IHa0.
Qed.

(** The test of line 51 does not see the line written by line 53. *)
Lemma org_listed_after_append (text : string) :
  line_terminated text ->
  org_listed (text ^^ "/.org" ^^ nl) = org_listed text.
Proof.
  intros [-> | [s ->]]; [reflexivity|].
  destruct (universal_newlines_app s) as [Happ [s' Hs']].
  unfold org_listed, readlines.
  rewrite Happ, Hs', readlines_from_app, !str_in_app.
  cbn [universal_newlines String.append readlines_from].
  now rewrite !orb_false_r.
Qed.

(** X15: the entry [init] appends to an existing [.gitignore] is [/.org],
    which its own test for [.org] does not recognise: when [.org] is gone
    again and [.gitignore], a file whose bytes decode, ends with the
    appended line after lines none of which is [.org], [init] appends the
    same line once more. *)
Theorem init_appends_unrecognised_entry (w : World) (text : string) :
  init_fresh w ->
  line_terminated text ->
  org_listed text = false ->
  utf8_valid (text ^^ "/.org" ^^ nl) = true ->
  lookup ".gitignore" (fs w) = Some (File (Some (text ^^ "/.org" ^^ nl))) ->
  lookup ".gitignore" (fs (world_of (init w)))
  = Some (File (Some ((text ^^ "/.org" ^^ nl) ^^ "/.org" ^^ nl))).
Proof.
  intros Hf Ht Hl Hv Hg.
  destruct (init_fresh_outcome Hf) as (_ & _ & -> & _).
  now rewrite Hg, Hv, (org_listed_after_append Ht), Hl.
Qed.

Lemma init_appends_unrecognised_entry_witness :
  lookup ".gitignore" (fs (world_of (init regrown_world)))
  = Some (File (Some ("build" ^^ nl ^^ "/.org" ^^ nl ^^ "/.org" ^^ nl))).
Proof.
  apply (@init_appends_unrecognised_entry regrown_world ("build" ^^ nl)).
  - split; [distinct_names | reflexivity].
  - right. exists "build". reflexivity.
  - reflexivity.
  - reflexivity.
  - reflexivity.
Defined.

(* ===================================================================== *)
(** ** Worked instances: a directory that is not initialised, and
    [.gitignore] files with other bytes *)


Example latin1_init_run :
  init latin1_world
  = Raise "UnicodeDecodeError"
      (mkWorld "/home/u"
         [(".gitignore", File (Some ("caf" ^^ String (ascii_of_nat 233) nl)));
          (".org", Dir [])]
         (mkTerminal 24 [Quit]))
      [EPrint "Created .org directory in /home/u"].
Proof. reflexivity. Qed.

Example crlf_init_run :
  init crlf_world
  = Ok tt
      (mkWorld "/home/u"
         [(".gitignore",
           File (Some ("build" ^^ String carriage_return nl
                       ^^ ".org" ^^ String carriage_return nl)));
          (".org", Dir [])]
         (mkTerminal 24 [Quit]))
      [EPrint "Created .org directory in /home/u";
       EPrint ".org is already listed in .gitignore"].
Proof. reflexivity. Qed.

Example readlines_universal :
  readlines ("a" ^^ String carriage_return nl ^^ "b"
             ^^ String carriage_return "c" ^^ nl ^^ "d")
  = ["a" ^^ nl; "b" ^^ nl; "c" ^^ nl; "d"].
Proof. reflexivity. Qed.

Example utf8_valid_samples :
  utf8_valid ("caf" ^^ String (ascii_of_nat 195)
                (String (ascii_of_nat 169) nl)) = true
  /\ utf8_valid ("caf" ^^ String (ascii_of_nat 233) nl) = false
  /\ utf8_valid (String (ascii_of_nat 237)
                   (String (ascii_of_nat 160)
                      (String (ascii_of_nat 128) ""))) = false
  /\ utf8_valid (String (ascii_of_nat 192)
                   (String (ascii_of_nat 128) "")) = false
  /\ utf8_valid (String (ascii_of_nat 240)
                   (String (ascii_of_nat 159)
                      (String (ascii_of_nat 152)
                         (String (ascii_of_nat 128) "")))) = true
  /\ utf8_valid (String (ascii_of_nat 226)
                   (String (ascii_of_nat 130) "")) = false.
Proof. repeat split. Qed.
